(** * GrossToNet: the Vietnamese gross-to-net payroll calculator

    A shallow embedding of [calculate_gross_to_net] and of the batch loop of
    [src/frontend/app.py], with the properties of the design document stated
    and settled against it.

    Numbers.  Python [int]s are [Z].  Python [float]s are modelled by exact
    rationals ([Q]): the amounts are read as the real numbers they denote, the
    literals [0.08], [0.015], [0.01], [0.05] ... as the decimal fractions they
    spell, and [+], [-], [*] as exact operations, so binary64 round-off,
    overflow, infinities and NaN are outside this model (NaN appears only as
    a blank spreadsheet cell in the batch loop).  [Module Binary64] further
    down re-runs the calculator bit for bit on IEEE-754 doubles, and is used
    to check that the concrete inputs discussed below behave in the same way
    on the machine arithmetic.  Equality of rationals is [==] ([Qeq]);
    rounded amounts are integers and compared with [=]. *)

From Stdlib Require Import ZArith QArith Qround Qminmax Qabs.
From Stdlib Require Import Lia Lqa List Bool Ascii String.
From Stdlib Require Import DecimalString DecimalZ DecimalPos Floats.
Import ListNotations.

Set Warnings "-inexact-float".

Local Open Scope Q_scope.

(** ** Python built-ins used by the calculator *)

(** [a > b] on floats. *)
Definition Qgt_bool (a b : Q) : bool := negb (Qle_bool a b).

(** [a <= b] is [Qle_bool a b]; [max(a, b)] returns [b] exactly when
    [b > a] and [min(a, b)] returns [b] exactly when [b < a]: this is how
    [Qmax] and [Qmin] are defined, so they stand for the built-ins. *)
Definition py_max (a b : Q) : Q := Qmax a b.
Definition py_min (a b : Q) : Q := Qmin a b.

(** [round(x)] with one argument: the nearest integer, ties to the even one. *)
Definition py_round (x : Q) : Z :=
  let f := Qfloor x in
  match Qcompare (x - inject_Z f) (1 # 2) with
  | Lt => f
  | Gt => (f + 1)%Z
  | Eq => if Z.even f then f else (f + 1)%Z
  end.

(** The other familiar tie-break, half away from zero upwards ("half-up"),
    kept for comparison only: the code never calls it. *)
Definition round_half_up (x : Q) : Z := Qfloor (x + (1 # 2)).

(** [z] is a round-half-to-even image of [x]. *)
Definition half_even_of (x : Q) (z : Z) : Prop :=
  Qabs (inject_Z z - x) <= 1 # 2 /\
  (Qabs (inject_Z z - x) == 1 # 2 -> Z.even z = true).

(** A dict with integer keys, as an association list in source order. *)
Fixpoint dict_get {V : Type} (k : Z) (d : list (Z * V)) : option V :=
  match d with
  | [] => None
  | (k', v) :: d' => if (k =? k')%Z then Some v else dict_get k d'
  end.

(** [str(n)] for an integer. *)
Definition str_of_Z (n : Z) : string := NilZero.string_of_int (Z.to_int n).

(** Exceptions that cross the functions modelled here. *)
Inductive PyException : Type :=
| ValueError (msg : string)
| ValidationError (msg : string).

(** [type(e).__name__] and [str(e)]. *)
Definition exc_name (e : PyException) : string :=
  match e with
  | ValueError _ => "ValueError"
  | ValidationError _ => "ValidationError"
  end.

Definition exc_str (e : PyException) : string :=
  match e with
  | ValueError m => m
  | ValidationError m => m
  end.

(** A call either returns or raises. *)
Inductive result (A : Type) : Type :=
| Return (a : A)
| Raise (e : PyException).
Arguments Return {A} a.
Arguments Raise {A} e.

Definition bind {A B : Type} (r : result A) (k : A -> result B) : result B :=
  match r with
  | Return a => k a
  | Raise e => Raise e
  end.

Notation "x <- r ;; k" := (bind r (fun x => k))
  (at level 61, r at next level, right associativity).

(** ** Data model *)

Record GrossNetInput : Type := mkGrossNetInput {
  in_gross_income : Q;
  in_num_dependents : Z;
  in_region : Z
}.

(** The fields of the two result models are declared [float] but always hold
    the value of a [round(...)] call, an integer. *)
Record InsuranceBreakdown : Type := mkInsuranceBreakdown {
  social_insurance : Z;
  health_insurance : Z;
  unemployment_insurance : Z;
  total : Z
}.

Record GrossNetResult : Type := mkGrossNetResult {
  gross_income : Z;
  net_income : Z;
  personal_income_tax : Z;
  total_insurance_contribution : Z;
  insurance_breakdown : InsuranceBreakdown;
  taxable_income : Z;
  pre_tax_income : Z
}.

(** The field constraints of [GrossNetInput]: [gt=0], [ge=0], [ge=1, le=4]. *)
Definition valid_input (data : GrossNetInput) : Prop :=
  0 < in_gross_income data /\
  (0 <= in_num_dependents data)%Z /\
  (1 <= in_region data <= 4)%Z.

(** ** Constant tables *)

Definition PERSONAL_ALLOWANCE : Z := 11000000.
Definition DEPENDENT_ALLOWANCE : Z := 4400000.

Definition RATE_SOCIAL_INSURANCE : Q := 8 # 100.
Definition RATE_HEALTH_INSURANCE : Q := 15 # 1000.
Definition RATE_UNEMPLOYMENT_INSURANCE : Q := 1 # 100.

Definition BASE_SALARY_FOR_CAPS : Z := 2340000.
Definition BHXH_BHYT_CAP_MULTIPLIER : Z := 20.
Definition BHTN_CAP_MULTIPLIER : Z := 20.

Definition BHXH_BHYT_MAX_BASE : Z :=
  (BASE_SALARY_FOR_CAPS * BHXH_BHYT_CAP_MULTIPLIER)%Z.

Definition REGIONAL_MINIMUM_WAGES : list (Z * Z) :=
  [ (1, 4960000); (2, 4410000); (3, 3860000); (4, 3450000) ]%Z.

(** A bracket limit: a number or [float('inf')]. *)
Inductive Limit : Type :=
| Finite (q : Q)
| Infinity.

Record Bracket : Type := mkBracket {
  limit : Limit;
  rate : Q;
  deduction : Q
}.

Definition PIT_BRACKETS : list Bracket :=
  [ mkBracket (Finite 5000000) (5 # 100) 0;
    mkBracket (Finite 10000000) (10 # 100) 250000;
    mkBracket (Finite 18000000) (15 # 100) 750000;
    mkBracket (Finite 32000000) (20 # 100) 1650000;
    mkBracket (Finite 52000000) (25 # 100) 3250000;
    mkBracket (Finite 80000000) (30 # 100) 5850000;
    mkBracket Infinity (35 # 100) 9850000 ].

(** ** calculate_gross_to_net *)

(** The local variables of the function, each as a function of the inputs it
    is computed from; [w] is [regional_min_wage]. *)
Section Locals.
Variable gross : Q.
Variable num_dependents : Z.
Variable w : Z.

Definition insurance_base : Q := py_max gross (inject_Z w).

Definition bhxh_bhyt_cap : Z := BHXH_BHYT_MAX_BASE.
Definition bhtn_cap : Z := (w * BHTN_CAP_MULTIPLIER)%Z.

Definition salary_base_bhxh_bhyt : Q :=
  py_max (py_min insurance_base (inject_Z bhxh_bhyt_cap)) (inject_Z w).
Definition salary_base_bhtn : Q :=
  py_max (py_min insurance_base (inject_Z bhtn_cap)) (inject_Z w).

Definition bhxh : Q := salary_base_bhxh_bhyt * RATE_SOCIAL_INSURANCE.
Definition bhyt : Q := salary_base_bhxh_bhyt * RATE_HEALTH_INSURANCE.
Definition bhtn : Q := salary_base_bhtn * RATE_UNEMPLOYMENT_INSURANCE.
Definition total_insurance : Q := bhxh + bhyt + bhtn.

Definition make_insurance_breakdown : InsuranceBreakdown :=
  {| social_insurance := py_round bhxh;
     health_insurance := py_round bhyt;
     unemployment_insurance := py_round bhtn;
     total := py_round total_insurance |}.

Definition pre_tax : Q := gross - total_insurance.

Definition dependent_allowance_total : Z :=
  (num_dependents * DEPENDENT_ALLOWANCE)%Z.
Definition total_allowances : Z :=
  (PERSONAL_ALLOWANCE + dependent_allowance_total)%Z.

(** [taxable_income] after the clamp of line 129. *)
Definition taxable : Q := py_max 0 (pre_tax - inject_Z total_allowances).
End Locals.

(** [min(taxable_income, bracket["limit"])]. *)
Definition min_limit (t : Q) (l : Limit) : Q :=
  match l with
  | Finite q => py_min t q
  | Infinity => t
  end.

(** The [for bracket in PIT_BRACKETS] loop, with its two loop variables [pit]
    and [previous_limit]; the [else: break] branch returns the accumulator.
    Nothing finite is greater than [float('inf')]. *)
Fixpoint pit_loop (taxable_income : Q) (brackets : list Bracket)
    (pit : Q) (previous_limit : Limit) : Q :=
  match brackets with
  | [] => pit
  | bracket :: rest =>
      match previous_limit with
      | Infinity => pit
      | Finite p =>
          if Qgt_bool taxable_income p then
            let taxable_at_current_rate :=
              min_limit taxable_income (limit bracket) - p in
            pit_loop taxable_income rest
              (pit + taxable_at_current_rate * rate bracket) (limit bracket)
          else pit
      end
  end.

(** [pit] before it is rounded, and after line 141. *)
Definition pit_unrounded (taxable_income : Q) : Q :=
  pit_loop taxable_income PIT_BRACKETS 0 (Finite 0).

Definition pit_of (taxable_income : Q) : Z :=
  Z.max 0 (py_round (pit_unrounded taxable_income)).

Definition net (gross : Q) (num_dependents w : Z) : Q :=
  gross - total_insurance gross w
  - inject_Z (pit_of (taxable gross num_dependents w)).

Definition invalid_region_message (region : Z) : string :=
  "Invalid region: " ++ str_of_Z region ++ ". Must be 1, 2, 3, or 4.".

Definition calculate_gross_to_net (data : GrossNetInput)
    : result GrossNetResult :=
  let gross := in_gross_income data in
  let num_dependents := in_num_dependents data in
  let region := in_region data in
  match dict_get region REGIONAL_MINIMUM_WAGES with
  | None => Raise (ValueError (invalid_region_message region))
  | Some regional_min_wage =>
      let breakdown := make_insurance_breakdown gross regional_min_wage in
      let taxable_income := taxable gross num_dependents regional_min_wage in
      let pit := pit_of taxable_income in
      Return
        {| gross_income := py_round gross;
           net_income := py_round (net gross num_dependents regional_min_wage);
           personal_income_tax := pit;
           total_insurance_contribution := total breakdown;
           insurance_breakdown := breakdown;
           taxable_income := py_round taxable_income;
           pre_tax_income := py_round (pre_tax gross regional_min_wage) |}
  end.

(** The call [calculate_gross_to_net(GrossNetInput(...))] on plain numbers. *)
Definition calc (gross : Q) (num_dependents region : Z)
    : result GrossNetResult :=
  calculate_gross_to_net (mkGrossNetInput gross num_dependents region).

(** ** The batch upload loop (tab 2) *)

(** A spreadsheet cell of a numeric column as pandas hands it to the loop: an
    integer, a float, or NaN for a blank cell. *)
Inductive Cell : Type :=
| CInt (z : Z)
| CFloat (q : Q)
| CNaN.

Inductive PyFloat : Type :=
| FNum (q : Q)
| FNaN.

(** [float(cell)]. *)
Definition py_float (c : Cell) : PyFloat :=
  match c with
  | CInt z => FNum (inject_Z z)
  | CFloat q => FNum q
  | CNaN => FNaN
  end.

(** [int(cell)]: truncation toward zero; NaN has no integer. *)
Definition py_int (c : Cell) : result Z :=
  match c with
  | CInt z => Return z
  | CFloat q => Return (Z.quot (Qnum q) (Zpos (Qden q)))
  | CNaN => Raise (ValueError "cannot convert float NaN to integer")
  end.

(** [x <= 0] on floats: every comparison with NaN is false. *)
Definition float_le_zero (x : PyFloat) : bool :=
  match x with
  | FNum q => Qle_bool q 0
  | FNaN => false
  end.


Record Row : Type := mkRow {
  GrossIncome : Cell;
  Dependents : Cell;
  Region : Cell
}.

(** [result_data]: the keys of [OUTPUT_COLUMNS], initially all [None]. *)
Record ResultData : Type := mkResultData {
  NetIncome : option Z;
  PIT : option Z;
  TotalInsurance : option Z;
  TaxableIncome : option Z;
  PreTaxIncome : option Z;
  BHXH : option Z;
  BHYT : option Z;
  BHTN : option Z;
  CalculationStatus : string;
  ErrorMessage : string
}.

(** [s.split(sep)] for a one-character separator. *)
Fixpoint split_on (sep : ascii) (s : string) : list string :=
  match s with
  | EmptyString => [EmptyString]
  | String c s' =>
      if Ascii.eqb c sep then EmptyString :: split_on sep s'
      else match split_on sep s' with
           | seg :: segs => String c seg :: segs
           | [] => [String c EmptyString]
           end
  end.

(** [c.isspace()] on the ASCII range. *)
Definition is_space (c : ascii) : bool :=
  let n := nat_of_ascii c in
  ((9 <=? n) && (n <=? 13) || (28 <=? n) && (n <=? 32))%nat.

Fixpoint lstrip (s : string) : string :=
  match s with
  | EmptyString => EmptyString
  | String c s' => if is_space c then lstrip s' else s
  end.

Definition string_rev (s : string) : string :=
  string_of_list_ascii (rev (list_ascii_of_string s)).

Definition rstrip (s : string) : string := string_rev (lstrip (string_rev s)).

Definition strip (s : string) : string := rstrip (lstrip s).

Definition is_empty (s : string) : bool :=
  match s with
  | EmptyString => true
  | String _ _ => false
  end.

Section Batch.
(** [str(e)] of the error pydantic raises when a field constraint fails;
    the text is produced by the pydantic package, not by this repository. *)
Variable pydantic_error_text : PyFloat -> Z -> Z -> string.

(** [GrossNetInput(gross_income=..., num_dependents=..., region=...)]:
    the constructor checks [gt=0], [ge=0] and [ge=1, le=4]. *)
Definition GrossNetInput_new (gross : PyFloat) (deps reg : Z)
    : result GrossNetInput :=
  match gross with
  | FNum g =>
      if Qgt_bool g 0 && (0 <=? deps)%Z && (1 <=? reg)%Z && (reg <=? 4)%Z
      then Return (mkGrossNetInput g deps reg)
      else Raise (ValidationError (pydantic_error_text gross deps reg))
  | FNaN => Raise (ValidationError (pydantic_error_text gross deps reg))
  end.

(** [reg not in [1, 2, 3, 4]]. *)
Definition not_in_1234 (reg : Z) : bool :=
  negb (existsb (Z.eqb reg) [1; 2; 3; 4]%Z).

(** The body of the [try] block, up to the call of the calculator. *)
Definition try_row (row : Row) : result GrossNetResult :=
  let gross := py_float (GrossIncome row) in
  deps <- py_int (Dependents row) ;;
  reg <- py_int (Region row) ;;
  if float_le_zero gross || (deps <? 0)%Z || not_in_1234 reg
  then Raise (ValueError "Invalid input value(s) in row.")
  else
    input_data <- GrossNetInput_new gross deps reg ;;
    calculate_gross_to_net input_data.

(** [f"Row {index + 2}: {type(e).__name__} - {e}"]; both exceptions of the
    model are [ValueError]s for the first [except] clause. *)
Definition error_msg_of (index : Z) (e : PyException) : string :=
  "Row " ++ str_of_Z (index + 2) ++ ": " ++ exc_name e ++ " - " ++ exc_str e.

(** [error_msg.split(':')[-1].strip() if error_msg else ""]. *)
Definition shown_message (error_msg : string) : string :=
  if is_empty error_msg then EmptyString
  else strip (last (split_on ":" error_msg) EmptyString).

(** One iteration of [for index, row in df_input.iterrows()]. *)
Definition process_row (index : Z) (row : Row) : ResultData :=
  match try_row row with
  | Return r =>
      {| NetIncome := Some (net_income r);
         PIT := Some (personal_income_tax r);
         TotalInsurance := Some (total_insurance_contribution r);
         TaxableIncome := Some (taxable_income r);
         PreTaxIncome := Some (pre_tax_income r);
         BHXH := Some (social_insurance (insurance_breakdown r));
         BHYT := Some (health_insurance (insurance_breakdown r));
         BHTN := Some (unemployment_insurance (insurance_breakdown r));
         CalculationStatus := "Success";
         ErrorMessage := shown_message EmptyString |}
  | Raise e =>
      {| NetIncome := None; PIT := None; TotalInsurance := None;
         TaxableIncome := None; PreTaxIncome := None;
         BHXH := None; BHYT := None; BHTN := None;
         CalculationStatus := "Error";
         ErrorMessage := shown_message (error_msg_of index e) |}
  end.

(** The loop over the rows, appending to [results_list]; [index] runs over
    the default row labels 0, 1, 2, ... *)
Fixpoint batch_loop (index : Z) (rows : list Row)
    (results_list : list ResultData) : list ResultData :=
  match rows with
  | [] => results_list
  | row :: rest =>
      batch_loop (index + 1) rest (results_list ++ [process_row index row])
  end.

(** [df_output]: the input columns side by side with the results. *)
Definition process_batch (df_input : list Row) : list (Row * ResultData) :=
  combine df_input (batch_loop 0 df_input []).
End Batch.

(** ** The calculator on IEEE-754 doubles

    The same function, operation by operation, on the primitive binary64
    floats: literals are the nearest doubles, every [+], [-], [*] rounds to
    nearest-even, and [round] reads the exact value of its argument.  Integer
    operands are converted to floats before a mixed operation, which is exact
    below 2^53; [None] stands for anything beyond that range and for [round]
    applied to an infinity or a NaN. *)
Module Binary64.
Local Open Scope float_scope.

(** The rational a finite double denotes. *)
Definition exact (x : float) : option Q :=
  match Prim2SF x with
  | S754_zero _ => Some 0%Q
  | S754_finite s m e =>
      let a := if (0 <=? e)%Z
               then inject_Z (Zpos m * 2 ^ e)
               else (Zpos m # Pos.pow 2 (Z.to_pos (- e))) in
      Some (if s then Qopp a else a)
  | S754_infinity _ => None
  | S754_nan => None
  end.

Definition round (x : float) : option Z := option_map py_round (exact x).

Definition of_int (z : Z) : option float :=
  if (Z.abs z <=? 2 ^ 53)%Z then
    let a := of_uint63 (Uint63.of_Z (Z.abs z)) in
    Some (if (z <? 0)%Z then - a else a)
  else None.

Definition max (a b : float) : float := if a <? b then b else a.
Definition min (a b : float) : float := if b <? a then b else a.

Definition PIT_BRACKETS : list (float * float) :=
  [ (5000000, 0.05); (10000000, 0.10); (18000000, 0.15);
    (32000000, 0.20); (52000000, 0.25); (80000000, 0.30);
    (infinity, 0.35) ].

Fixpoint pit_loop (taxable_income : float) (brackets : list (float * float))
    (pit previous_limit : float) : float :=
  match brackets with
  | [] => pit
  | (limit, rate) :: rest =>
      if previous_limit <? taxable_income then
        let taxable_at_current_rate :=
          min taxable_income limit - previous_limit in
        pit_loop taxable_income rest
          (pit + taxable_at_current_rate * rate) limit
      else pit
  end.

(** The unrounded locals, in the order the function computes them. *)
Record Locals : Type := mkLocals {
  insurance_base : float;
  bhxh : float;
  bhyt : float;
  bhtn : float;
  total_insurance : float;
  pre_tax : float;
  taxable : float;
  pit_unrounded : float
}.

Definition locals (gross : float) (total_allowances w : float) : Locals :=
  let insurance_base := max gross w in
  let bhxh_bhyt_cap := 2340000 * 20 in
  let bhtn_cap := w * 20 in
  let salary_base_bhxh_bhyt := max (min insurance_base bhxh_bhyt_cap) w in
  let salary_base_bhtn := max (min insurance_base bhtn_cap) w in
  let bhxh := salary_base_bhxh_bhyt * 0.08 in
  let bhyt := salary_base_bhxh_bhyt * 0.015 in
  let bhtn := salary_base_bhtn * 0.01 in
  let total_insurance := bhxh + bhyt + bhtn in
  let pre_tax_income := gross - total_insurance in
  let taxable_income := max 0 (pre_tax_income - total_allowances) in
  mkLocals insurance_base bhxh bhyt bhtn total_insurance pre_tax_income
    taxable_income (pit_loop taxable_income PIT_BRACKETS 0 0).

Definition option_bind {A B : Type} (o : option A) (k : A -> option B)
    : option B :=
  match o with
  | Some a => k a
  | None => None
  end.

Definition calc (gross : float) (num_dependents region : Z)
    : option (result GrossNetResult) :=
  match dict_get region REGIONAL_MINIMUM_WAGES with
  | None => Some (Raise (ValueError (invalid_region_message region)))
  | Some regional_min_wage =>
      option_bind (of_int regional_min_wage) (fun w =>
      option_bind (of_int (total_allowances num_dependents)) (fun allowances =>
      let l := locals gross allowances w in
      option_bind (round (bhxh l)) (fun r_bhxh =>
      option_bind (round (bhyt l)) (fun r_bhyt =>
      option_bind (round (bhtn l)) (fun r_bhtn =>
      option_bind (round (total_insurance l)) (fun r_total =>
      option_bind (round (pit_unrounded l)) (fun r_pit =>
      let pit := Z.max 0 r_pit in
      option_bind (of_int pit) (fun pit_float =>
      let net_income := gross - total_insurance l - pit_float in
      option_bind (round gross) (fun r_gross =>
      option_bind (round net_income) (fun r_net =>
      option_bind (round (taxable l)) (fun r_taxable =>
      option_bind (round (pre_tax l)) (fun r_pre_tax =>
      Some (Return
        {| gross_income := r_gross;
           net_income := r_net;
           personal_income_tax := pit;
           total_insurance_contribution := r_total;
           insurance_breakdown :=
             mkInsuranceBreakdown r_bhxh r_bhyt r_bhtn r_total;
           taxable_income := r_taxable;
           pre_tax_income := r_pre_tax |})))))))))))))
  end.
End Binary64.

(** ** Definitions used to state the properties *)

(** [limit >= t], for a limit that may be [float('inf')]. *)
Definition limit_geb (l : Limit) (t : Q) : bool :=
  match l with
  | Finite q => Qle_bool t q
  | Infinity => true
  end.



(** A bracket table is well formed from [previous_limit] on when its limits
    do not decrease and its rates lie between 0 and [top]. *)
Definition limit_le (a b : Limit) : Prop :=
  match a, b with
  | Finite x, Finite y => x <= y
  | _, Infinity => True
  | Infinity, Finite _ => False
  end.

Fixpoint well_formed (top : Q) (previous_limit : Limit)
    (brackets : list Bracket) : Prop :=
  match brackets with
  | [] => True
  | b :: rest =>
      0 <= rate b /\ rate b <= top /\ limit_le previous_limit (limit b) /\
      well_formed top (limit b) rest
  end.




(** Comparison of the exact model with the run on doubles, on a grid of
    round salaries: [same_on_doubles] holds when both return the same
    result for an integer gross income. *)
Definition breakdown_eqb (a b : InsuranceBreakdown) : bool :=
  ((social_insurance a =? social_insurance b)
   && (health_insurance a =? health_insurance b)
   && (unemployment_insurance a =? unemployment_insurance b)
   && (total a =? total b))%Z.

Definition result_eqb (a b : GrossNetResult) : bool :=
  ((gross_income a =? gross_income b)
   && (net_income a =? net_income b)
   && (personal_income_tax a =? personal_income_tax b)
   && (total_insurance_contribution a =? total_insurance_contribution b)
   && (taxable_income a =? taxable_income b)
   && (pre_tax_income a =? pre_tax_income b))%Z
  && breakdown_eqb (insurance_breakdown a) (insurance_breakdown b).

Definition same_on_doubles (gross d region : Z) : bool :=
  match Binary64.of_int gross with
  | Some x =>
      match Binary64.calc x d region, calc (inject_Z gross) d region with
      | Some (Return a), Return b => result_eqb a b
      | _, _ => false
      end
  | None => false
  end.

(** Gross incomes 2,500,000, 5,000,000, ... up to [n] times 2,500,000, every
    region, 0 to 3 dependents. *)
Definition salary_grid (n : nat) : bool :=
  forallb (fun k =>
    forallb (fun region =>
      forallb (fun d => same_on_doubles (Z.of_nat (S k) * 2500000) d region)
        [0; 1; 2; 3]%Z)
      [1; 2; 3; 4]%Z)
    (seq 0 n).

(** ** The column check of the batch upload *)

(** [EXPECTED_COLUMNS], in source order. *)
Definition EXPECTED_COLUMNS : list (string * string) :=
  [ ("gross", "GrossIncome"); ("dependents", "Dependents");
    ("region", "Region") ]%string.

(** [expected_name in df_input.columns]: labels are compared exactly. *)
Definition column_present (columns : list string) (name : string) : bool :=
  existsb (String.eqb name) columns.

(** The loop of lines 323-327: the expected names that are not column
    labels, in the order of [EXPECTED_COLUMNS]. *)
Fixpoint missing_cols_loop (columns : list string)
    (expected : list (string * string)) (missing_cols : list string)
    : list string :=
  match expected with
  | [] => missing_cols
  | (_, expected_name) :: rest =>
      if column_present columns expected_name
      then missing_cols_loop columns rest missing_cols
      else missing_cols_loop columns rest (missing_cols ++ [expected_name])
  end.

(** The uploaded table: its column labels (taken to be distinct) and its
    rows, each with one cell per column. *)
Record DataFrame : Type := mkDataFrame {
  df_columns : list string;
  df_rows : list (list Cell)
}.

Fixpoint column_index (name : string) (columns : list string) : nat :=
  match columns with
  | [] => O
  | c :: rest => if String.eqb name c then O else S (column_index name rest)
  end.

(** [row[name]] for a label of the table; a row too short for its table
    reads as blank. *)
Definition row_get (columns : list string) (row : list Cell) (name : string)
    : Cell :=
  nth (column_index name columns) row CNaN.

(** The three cells the loop reads from a row. *)
Definition required_cells (columns : list string) (row : list Cell) : Row :=
  {| GrossIncome := row_get columns row "GrossIncome";
     Dependents := row_get columns row "Dependents";
     Region := row_get columns row "Region" |}.

(** What the upload tab shows: the error about missing columns, or the
    result table (the three required columns followed by the output
    columns). *)
Inductive UploadOutcome : Type :=
| MissingColumns (message : string)
| ResultTable (df_output : list (Row * ResultData)).

Definition upload (pydantic_error_text : PyFloat -> Z -> Z -> string)
    (df_input : DataFrame) : UploadOutcome :=
  match missing_cols_loop (df_columns df_input) EXPECTED_COLUMNS [] with
  | [] =>
      ResultTable
        (process_batch pydantic_error_text
           (map (required_cells (df_columns df_input)) (df_rows df_input)))
  | missing_cols =>
      MissingColumns
        ("Error: Missing required columns in Excel file: "
         ++ String.concat ", " missing_cols)
  end.

(** ** format_vnd *)

(** The [,] option of the format specification: a comma before every group
    of three digits, counted from the right. *)
Fixpoint group_thousands (digits : string) : string :=
  match digits with
  | EmptyString => EmptyString
  | String c rest =>
      String c
        (if (0 <? String.length rest)%nat
            && (String.length rest mod 3 =? 0)%nat
         then String "," (group_thousands rest)
         else group_thousands rest)
  end.

(** [format_vnd] on the values the app passes to it, the integer-valued
    fields of a result ([None] is a NaN, for which [pd.isna] holds):
    [f"{float(value):,.0f} VND"]. *)
Definition format_vnd (value : option Z) : string :=
  match value with
  | None => EmptyString
  | Some z =>
      ((if (z <? 0)%Z then "-" else "")
       ++ group_thousands (str_of_Z (Z.abs z)) ++ " VND")%string
  end.

(** Reading a formatted amount back: drop the commas. *)
Fixpoint remove_commas (s : string) : string :=
  match s with
  | EmptyString => EmptyString
  | String c rest =>
      if Ascii.eqb c "," then remove_commas rest
      else String c (remove_commas rest)
  end.

(** [c in s]. *)
Fixpoint string_mem (c : ascii) (s : string) : bool :=
  match s with
  | EmptyString => false
  | String c' rest => Ascii.eqb c c' || string_mem c rest
  end.



(** ** The HTTP endpoint *)



(** * Properties *)

(** ** Rounding *)

Lemma Qcompare_lt_iff (x y : Q) : Qcompare x y = Lt <-> x < y.
Proof. symmetry. apply Qlt_alt. Qed.

Lemma Qcompare_gt_iff (x y : Q) : Qcompare x y = Gt <-> y < x.
Proof. symmetry. apply Qgt_alt. Qed.

Lemma Qcompare_eq_iff (x y : Q) : Qcompare x y = Eq <-> x == y.
Proof. symmetry. apply Qeq_alt. Qed.

Lemma Qgt_bool_true (a b : Q) : Qgt_bool a b = true <-> b < a.
Proof.
  unfold Qgt_bool. rewrite negb_true_iff, <- not_true_iff_false, Qle_bool_iff.
  split; [apply Qnot_le_lt | apply Qlt_not_le].
Qed.

Lemma Qgt_bool_false (a b : Q) : Qgt_bool a b = false <-> a <= b.
Proof.
  unfold Qgt_bool. rewrite negb_false_iff. apply Qle_bool_iff.
Qed.

Lemma inject_Z_succ (z : Z) : inject_Z (z + 1) = inject_Z z + 1.
Proof. exact (inject_Z_plus z 1). Qed.

(** [round] picks [floor x] or [floor x + 1], whichever is within one half. *)
Lemma py_round_bounds (x : Q) :
  x - (1 # 2) <= inject_Z (py_round x) <= x + (1 # 2).
Proof.
  unfold py_round.
  pose proof (Qfloor_le x) as Hf. pose proof (Qlt_floor x) as Hc.
  rewrite inject_Z_succ in Hc.
  destruct (Qcompare (x - inject_Z (Qfloor x)) (1 # 2)) eqn:E.
  - apply -> Qcompare_eq_iff in E.
    destruct (Z.even (Qfloor x)); rewrite ?inject_Z_succ; lra.
  - apply -> Qcompare_lt_iff in E. lra.
  - apply -> Qcompare_gt_iff in E. rewrite inject_Z_succ. lra.
Qed.

Lemma py_round_comp (x y : Q) : x == y -> py_round x = py_round y.
Proof.
  intros E. unfold py_round.
  rewrite (Qfloor_comp x y E).
  assert (x - inject_Z (Qfloor y) == y - inject_Z (Qfloor y)) as E' by lra.
  now rewrite (Qcompare_comp _ _ E' _ _ (Qeq_refl (1 # 2))).
Qed.

Add Parametric Morphism : py_round
  with signature Qeq ==> eq as py_round_morphism.
Proof. exact py_round_comp. Qed.

(** At a tie the result is even. *)
Lemma py_round_tie_even (x : Q) :
  Qabs (inject_Z (py_round x) - x) == 1 # 2 -> Z.even (py_round x) = true.
Proof.
  unfold py_round.
  pose proof (Qfloor_le x) as Hf. pose proof (Qlt_floor x) as Hc.
  rewrite inject_Z_succ in Hc.
  destruct (Qcompare (x - inject_Z (Qfloor x)) (1 # 2)) eqn:E.
  - intros _. destruct (Z.even (Qfloor x)) eqn:Ev; [exact Ev|].
    rewrite Z.even_add, Ev. reflexivity.
  - apply -> Qcompare_lt_iff in E. intros H.
    rewrite Qabs_neg in H by lra. lra.
  - apply -> Qcompare_gt_iff in E. intros H. rewrite inject_Z_succ in H.
    rewrite Qabs_pos in H by lra. lra.
Qed.

Lemma py_round_half_even (x : Q) : half_even_of x (py_round x).
Proof.
  split; [|apply py_round_tie_even].
  pose proof (py_round_bounds x). apply Qabs_Qle_condition. lra.
Qed.

(** Round-half-to-even determines its result. *)
Lemma half_even_of_unique (x : Q) (z1 z2 : Z) :
  half_even_of x z1 -> half_even_of x z2 -> z1 = z2.
Proof.
  intros [B1 T1] [B2 T2].
  apply Qabs_Qle_condition in B1, B2.
  destruct (Z.lt_trichotomy z1 z2) as [L|[E|L]]; [|exact E|]; exfalso.
  - assert (inject_Z z1 + 1 <= inject_Z z2) as H
      by (rewrite <- inject_Z_succ, <- Zle_Qle; lia).
    assert (z2 = z1 + 1)%Z as ->.
    { assert (inject_Z z2 <= inject_Z z1 + 1) as H' by lra.
      rewrite <- inject_Z_succ, <- Zle_Qle in H'. lia. }
    rewrite inject_Z_succ in *.
    assert (Z.even z1 = true) as E1
      by (apply T1; rewrite Qabs_neg by lra; lra).
    assert (Z.even (z1 + 1) = true) as E2
      by (apply T2; rewrite Qabs_pos by lra; lra).
    rewrite Z.even_add, E1 in E2. discriminate.
  - assert (inject_Z z2 + 1 <= inject_Z z1) as H
      by (rewrite <- inject_Z_succ, <- Zle_Qle; lia).
    assert (z1 = z2 + 1)%Z as ->.
    { assert (inject_Z z1 <= inject_Z z2 + 1) as H' by lra.
      rewrite <- inject_Z_succ, <- Zle_Qle in H'. lia. }
    rewrite inject_Z_succ in *.
    assert (Z.even z2 = true) as E1
      by (apply T2; rewrite Qabs_neg by lra; lra).
    assert (Z.even (z2 + 1) = true) as E2
      by (apply T1; rewrite Qabs_pos by lra; lra).
    rewrite Z.even_add, E1 in E2. discriminate.
Qed.

Lemma py_round_inject_Z (z : Z) : py_round (inject_Z z) = z.
Proof.
  symmetry. apply (half_even_of_unique (inject_Z z)); [|apply py_round_half_even].
  assert (inject_Z z - inject_Z z == 0) as E by lra.
  split; rewrite E; [discriminate | intros H; discriminate H].
Qed.

Lemma py_round_mono (x y : Q) : x <= y -> (py_round x <= py_round y)%Z.
Proof.
  intros Hxy.
  destruct (Z.le_gt_cases (py_round x) (py_round y)) as [H|H]; [exact H|].
  pose proof (py_round_bounds x) as Bx. pose proof (py_round_bounds y) as By.
  assert (inject_Z (py_round y) + 1 <= inject_Z (py_round x)) as H'
    by (rewrite <- inject_Z_succ, <- Zle_Qle; lia).
  assert (x == y) as E by lra.
  rewrite (py_round_comp x y E) in H. lia.
Qed.

Lemma py_round_nonneg (x : Q) : 0 <= x -> (0 <= py_round x)%Z.
Proof.
  intros H. rewrite <- (py_round_inject_Z 0). now apply py_round_mono.
Qed.


(** ** The worked example: 30,000,000 VND, one dependent, region 1 *)

(** On doubles the example runs to the same rounded figures, and its unrounded
    locals are the exact amounts. *)
Lemma worked_example_on_doubles :
  Binary64.calc 30000000 1 1 = Some (calc 30000000 1 1) /\
  Binary64.locals 30000000 15400000 4960000 =
    Binary64.mkLocals 30000000 2400000 450000 300000 3150000 26850000
      11450000 967500.
Proof. split; vm_compute; reflexivity. Qed.

(** C1, the figures as pinned: the personal income tax of the example is not
    within 100,000 VND of 790,000, nor the net income within 100,000 VND of
    26,060,000. *)
Lemma scenario_1_pinned_tax_fails :
  ~ exists r, calc 30000000 1 1 = Return r /\
      ((Z.abs (personal_income_tax r - 790000) <= 100000)%Z \/
       (Z.abs (net_income r - 26060000) <= 100000)%Z).
Proof.
  intros [r [H [B|B]]]; vm_compute in H; injection H as <-;
    vm_compute in B; apply B; reflexivity.
Qed.

(** C1, amended: for gross 30,000,000, one dependent, region 1 (minimum
    wage 4,960,000) the locals are insurance base 30,000,000, social
    insurance 2,400,000, health insurance 450,000, unemployment insurance
    300,000, total insurance 3,150,000, pre-tax income 26,850,000, allowances
    15,400,000, taxable income 11,450,000; the bracket walk gives a tax of
    exactly 967,500 (250,000 + 500,000 + 217,500) and the net income is
    25,882,500. *)
Theorem scenario_1_figures :
  dict_get 1%Z REGIONAL_MINIMUM_WAGES = Some 4960000%Z /\
  insurance_base 30000000 4960000 == 30000000 /\
  bhxh 30000000 4960000 == 2400000 /\
  bhyt 30000000 4960000 == 450000 /\
  bhtn 30000000 4960000 == 300000 /\
  total_insurance 30000000 4960000 == 3150000 /\
  pre_tax 30000000 4960000 == 26850000 /\
  total_allowances 1 = 15400000%Z /\
  taxable 30000000 1 4960000 == 11450000 /\
  pit_unrounded 11450000 == 250000 + 500000 + 217500 /\
  calc 30000000 1 1 =
    Return
      {| gross_income := 30000000;
         net_income := 25882500;
         personal_income_tax := 967500;
         total_insurance_contribution := 3150000;
         insurance_breakdown :=
           {| social_insurance := 2400000;
              health_insurance := 450000;
              unemployment_insurance := 300000;
              total := 3150000 |};
         taxable_income := 11450000;
         pre_tax_income := 26850000 |}.
Proof. repeat split; vm_compute; reflexivity. Qed.

(** ** The constant tables *)

Lemma wage_lookup (region w : Z) :
  dict_get region REGIONAL_MINIMUM_WAGES = Some w ->
  (1 <= region <= 4)%Z /\ (3450000 <= w <= 4960000)%Z.
Proof.
  unfold REGIONAL_MINIMUM_WAGES; cbn [dict_get].
  repeat match goal with
         | |- context [(region =? ?k)%Z] =>
             destruct (Z.eqb_spec region k) as [->|_]; [intros [= <-]; lia|]
         end.
  discriminate.
Qed.

Lemma wage_lookup_some (region : Z) :
  (1 <= region <= 4)%Z ->
  exists w, dict_get region REGIONAL_MINIMUM_WAGES = Some w.
Proof.
  intros H.
  assert (region = 1 \/ region = 2 \/ region = 3 \/ region = 4)%Z
    as [-> | [-> | [-> | ->]]] by lia; eexists; reflexivity.
Qed.


Lemma pit_brackets_well_formed :
  well_formed (35 # 100) (Finite 0) PIT_BRACKETS.
Proof. cbn. repeat split; try lra; discriminate. Qed.

(** ** Insurance *)

(** Case analysis on every [max] and [min] in sight: each one is replaced by
    a fresh variable carrying its specification. *)
Ltac name_max a b :=
  let m := fresh "m" in
  let H := fresh "Hm" in
  pose proof (Q.max_spec a b) as H; set (m := Qmax a b) in *; clearbody m.

Ltac name_min a b :=
  let m := fresh "m" in
  let H := fresh "Hm" in
  pose proof (Q.min_spec a b) as H; set (m := Qmin a b) in *; clearbody m.

Ltac name_minmax :=
  unfold py_max, py_min in *;
  repeat match goal with
         | |- context [Qmax ?a ?b] => name_max a b
         | |- context [Qmin ?a ?b] => name_min a b
         | _ : context [Qmax ?a ?b] |- _ => name_max a b
         | _ : context [Qmin ?a ?b] |- _ => name_min a b
         end.

Ltac minmax := name_minmax; lra.

(** The salary bases never fall below the minimum wage nor exceed
    [max(gross, w)], and the insurance is 10.5 percent of something between. *)
Lemma total_insurance_bounds (g : Q) (w : Z) :
  (105 # 1000) * inject_Z w <= total_insurance g w /\
  total_insurance g w <= (105 # 1000) * py_max g (inject_Z w).
Proof.
  unfold total_insurance, bhxh, bhyt, bhtn, salary_base_bhxh_bhyt,
    salary_base_bhtn, insurance_base, RATE_SOCIAL_INSURANCE,
    RATE_HEALTH_INSURANCE, RATE_UNEMPLOYMENT_INSURANCE.
  minmax.
Qed.

(** Raising the gross income raises the insurance, by at most 10.5 percent of
    the raise. *)
Lemma total_insurance_lipschitz (g1 g2 : Q) (w : Z) :
  g1 <= g2 ->
  total_insurance g1 w <= total_insurance g2 w /\
  total_insurance g2 w - total_insurance g1 w <= (105 # 1000) * (g2 - g1).
Proof.
  intros H.
  unfold total_insurance, bhxh, bhyt, bhtn, salary_base_bhxh_bhyt,
    salary_base_bhtn, insurance_base, RATE_SOCIAL_INSURANCE,
    RATE_HEALTH_INSURANCE, RATE_UNEMPLOYMENT_INSURANCE.
  minmax.
Qed.

(** ** The bracket walk *)

(** The accumulator only collects: the loop adds to whatever [pit] holds. *)
Lemma pit_loop_acc (t : Q) (brackets : list Bracket) :
  forall acc previous_limit,
    pit_loop t brackets acc previous_limit
    == acc + pit_loop t brackets 0 previous_limit.
Proof.
  induction brackets as [|b rest IH]; intros acc prev; cbn.
  - lra.
  - destruct prev as [p|]; [|lra].
    destruct (Qgt_bool t p); [|lra].
    rewrite (IH (acc + _)), (IH (0 + _)). lra.
Qed.

(** One iteration, read as an equation. *)
Lemma pit_loop_step (t p : Q) (b : Bracket) (rest : list Bracket) :
  pit_loop t (b :: rest) 0 (Finite p)
  == if Qgt_bool t p
     then (min_limit t (limit b) - p) * rate b + pit_loop t rest 0 (limit b)
     else 0.
Proof.
  cbn. destruct (Qgt_bool t p); [|lra].
  rewrite pit_loop_acc. lra.
Qed.

(** The loop breaks at once when the income does not exceed the limit
    reached so far. *)
Lemma pit_loop_break (t : Q) (brackets : list Bracket) (l : Limit) :
  limit_geb l t = true -> pit_loop t brackets 0 l == 0.
Proof.
  intros H. destruct brackets as [|b rest]; cbn; [lra|].
  destruct l as [q|]; [|lra].
  cbn in H. apply Qle_bool_iff, Qgt_bool_false in H. rewrite H. lra.
Qed.

Lemma Qmult_le_scale (x r s : Q) : 0 <= x -> r <= s -> x * r <= x * s.
Proof.
  intros Hx Hrs. rewrite (Qmult_comm x r), (Qmult_comm x s).
  now apply Qmult_le_compat_r.
Qed.

Section BracketWalk.
Variable top : Q.
Hypothesis top_nonneg : 0 <= top.

(** On a well-formed table the walk is non-negative and taxes the income
    above the starting limit at no more than the top rate. *)
Lemma pit_loop_bounds (brackets : list Bracket) :
  forall p t,
    well_formed top (Finite p) brackets ->
    0 <= pit_loop t brackets 0 (Finite p) /\
    (p <= t -> pit_loop t brackets 0 (Finite p) <= top * (t - p)).
Proof.
  induction brackets as [|b rest IH]; intros p t WF.
  - cbn. split; [lra|]. intros H. apply Qmult_le_0_compat; lra.
  - destruct WF as (R0 & R1 & L & WF).
    rewrite pit_loop_step.
    destruct (Qgt_bool t p) eqn:C;
      [apply Qgt_bool_true in C
      |split; [lra|intros H; apply Qmult_le_0_compat; lra]].
    destruct (limit b) as [q|] eqn:El; cbn [min_limit limit_le] in *.
    + destruct (IH q t WF) as [N U].
      destruct (Qlt_le_dec q t) as [Hq|Hq].
      * assert (py_min t q == q) as -> by minmax.
        specialize (U (Qlt_le_weak _ _ Hq)).
        assert (0 <= (q - p) * rate b) by (apply Qmult_le_0_compat; lra).
        assert ((q - p) * rate b <= (q - p) * top)
          by (apply Qmult_le_scale; lra).
        split; [lra|]. intros _. lra.
      * assert (py_min t q == t) as -> by minmax.
        rewrite (pit_loop_break t rest (Finite q))
          by (cbn; now apply Qle_bool_iff).
        assert (0 <= (t - p) * rate b) by (apply Qmult_le_0_compat; lra).
        assert ((t - p) * rate b <= (t - p) * top)
          by (apply Qmult_le_scale; lra).
        split; [lra|]. intros _. lra.
    + rewrite (pit_loop_break t rest Infinity) by reflexivity.
      assert (0 <= (t - p) * rate b) by (apply Qmult_le_0_compat; lra).
      assert ((t - p) * rate b <= (t - p) * top)
        by (apply Qmult_le_scale; lra).
      split; [lra|]. intros _. lra.
Qed.

(** On a well-formed table a larger income is never taxed less. *)
Lemma pit_loop_mono (brackets : list Bracket) :
  forall p t1 t2,
    well_formed top (Finite p) brackets ->
    t1 <= t2 ->
    pit_loop t1 brackets 0 (Finite p) <= pit_loop t2 brackets 0 (Finite p).
Proof.
  induction brackets as [|b rest IH]; intros p t1 t2 WF H.
  - cbn. lra.
  - pose proof (pit_loop_bounds (b :: rest) p t2 WF) as [N2 _].
    destruct WF as (R0 & R1 & L & WF).
    rewrite pit_loop_step in N2. rewrite !pit_loop_step.
    destruct (Qgt_bool t1 p) eqn:C1.
    + apply Qgt_bool_true in C1.
      assert (Qgt_bool t2 p = true) as C2 by (apply Qgt_bool_true; lra).
      rewrite C2.
      destruct (limit b) as [q|] eqn:El; cbn [min_limit limit_le] in *.
      * specialize (IH q t1 t2 WF H).
        assert ((py_min t1 q - p) * rate b <= (py_min t2 q - p) * rate b)
          by (apply Qmult_le_compat_r; [minmax|lra]).
        lra.
      * rewrite !(pit_loop_break _ rest Infinity) by reflexivity.
        assert ((t1 - p) * rate b <= (t2 - p) * rate b)
          by (apply Qmult_le_compat_r; lra).
        lra.
    + exact N2.
Qed.
End BracketWalk.

(** ** The tax on the literal table *)

Lemma pit_unrounded_nonneg (t : Q) : 0 <= pit_unrounded t.
Proof.
  apply (pit_loop_bounds (35 # 100)); [lra|apply pit_brackets_well_formed].
Qed.

Lemma pit_unrounded_le_top_rate (t : Q) :
  0 <= t -> pit_unrounded t <= (35 # 100) * t.
Proof.
  intros H.
  destruct (pit_loop_bounds (35 # 100) ltac:(lra) PIT_BRACKETS 0 t
              pit_brackets_well_formed) as [_ U].
  specialize (U H). unfold pit_unrounded. lra.
Qed.

Lemma pit_unrounded_mono (t1 t2 : Q) :
  t1 <= t2 -> pit_unrounded t1 <= pit_unrounded t2.
Proof.
  apply (pit_loop_mono (35 # 100)); [lra|apply pit_brackets_well_formed].
Qed.

Lemma pit_unrounded_comp (t1 t2 : Q) :
  t1 == t2 -> pit_unrounded t1 == pit_unrounded t2.
Proof.
  intros E. apply Qle_antisym; apply pit_unrounded_mono; lra.
Qed.

Lemma pit_unrounded_zero (t : Q) : t <= 0 -> pit_unrounded t == 0.
Proof.
  intros H. apply pit_loop_break. cbn. now apply Qle_bool_iff.
Qed.

(** The floor at 0 of line 141 never binds. *)
Lemma pit_of_round (t : Q) : pit_of t = py_round (pit_unrounded t).
Proof.
  unfold pit_of. apply Z.max_r, py_round_nonneg, pit_unrounded_nonneg.
Qed.

Lemma pit_of_nonneg (t : Q) : (0 <= pit_of t)%Z.
Proof. unfold pit_of. apply Z.le_max_l. Qed.

Lemma pit_of_mono (t1 t2 : Q) : t1 <= t2 -> (pit_of t1 <= pit_of t2)%Z.
Proof.
  intros H. rewrite !pit_of_round. now apply py_round_mono, pit_unrounded_mono.
Qed.




(** ** Pre-tax and taxable income *)

Lemma pre_tax_mono (g1 g2 : Q) (w : Z) :
  g1 <= g2 -> pre_tax g1 w <= pre_tax g2 w.
Proof.
  intros H. destruct (total_insurance_lipschitz g1 g2 w H) as [_ L].
  unfold pre_tax. lra.
Qed.

Lemma taxable_nonneg (g : Q) (d w : Z) : 0 <= taxable g d w.
Proof. unfold taxable. minmax. Qed.

Lemma taxable_mono_gross (g1 g2 : Q) (d w : Z) :
  g1 <= g2 -> taxable g1 d w <= taxable g2 d w.
Proof.
  intros H. pose proof (pre_tax_mono g1 g2 w H). unfold taxable. minmax.
Qed.




Lemma taxable_clamped (g : Q) (d w : Z) :
  pre_tax g w <= inject_Z (total_allowances d) -> taxable g d w == 0.
Proof. intros H. unfold taxable. minmax. Qed.

(** The taxable income never exceeds a non-negative pre-tax income. *)
Lemma taxable_le_pre_tax (g : Q) (d w : Z) :
  (0 <= d)%Z -> 0 <= pre_tax g w -> taxable g d w <= pre_tax g w.
Proof.
  intros Hd Hp.
  assert (0 <= inject_Z (total_allowances d)) as Ha.
  { change 0 with (inject_Z 0). rewrite <- Zle_Qle.
    unfold total_allowances, dependent_allowance_total,
      PERSONAL_ALLOWANCE, DEPENDENT_ALLOWANCE. lia. }
  unfold taxable. minmax.
Qed.

(** ** What the function returns *)

Lemma calculate_returns (g : Q) (d region w : Z) :
  dict_get region REGIONAL_MINIMUM_WAGES = Some w ->
  calc g d region =
    Return
      {| gross_income := py_round g;
         net_income := py_round (net g d w);
         personal_income_tax := pit_of (taxable g d w);
         total_insurance_contribution := py_round (total_insurance g w);
         insurance_breakdown := make_insurance_breakdown g w;
         taxable_income := py_round (taxable g d w);
         pre_tax_income := py_round (pre_tax g w) |}.
Proof.
  intros E. unfold calc, calculate_gross_to_net.
  cbn [in_gross_income in_num_dependents in_region]. rewrite E. reflexivity.
Qed.

Lemma data_eta (data : GrossNetInput) :
  calculate_gross_to_net data
  = calc (in_gross_income data) (in_num_dependents data) (in_region data).
Proof. destruct data. reflexivity. Qed.

(** Integer inequalities read through their rational images. *)
Lemma Z_abs_le_via_Q (z n : Z) :
  - inject_Z n - (1 # 2) <= inject_Z z <= inject_Z n + (1 # 2) ->
  (Z.abs z <= n)%Z.
Proof.
  intros [Lo Hi].
  assert (inject_Z z < inject_Z (n + 1)) as H1
    by (rewrite inject_Z_succ; lra).
  assert (inject_Z (- (n + 1)) < inject_Z z) as H2
    by (rewrite inject_Z_opp, inject_Z_succ; lra).
  rewrite <- Zlt_Qlt in H1, H2. lia.
Qed.

(** ** The insurance breakdown *)

(** Rounding a sum and summing the roundings of three terms differ by at most
    2: each of the four roundings moves its argument by at most one half. *)
Lemma round_sum_drift (a b c : Q) :
  (Z.abs (py_round (a + b + c) - (py_round a + py_round b + py_round c))
   <= 2)%Z.
Proof.
  pose proof (py_round_bounds a). pose proof (py_round_bounds b).
  pose proof (py_round_bounds c). pose proof (py_round_bounds (a + b + c)).
  apply Z_abs_le_via_Q. change (inject_Z 2) with 2.
  unfold Z.sub. rewrite !inject_Z_plus, inject_Z_opp, !inject_Z_plus. lra.
Qed.

(** The inputs used as counterexamples below run to the same results on
    doubles as in exact arithmetic. *)
Lemma counterexample_inputs_binary64 :
  Binary64.calc 5000030 0 1 = Some (calc 5000030 0 1) /\
  Binary64.calc 1 0 1 = Some (calc 1 0 1) /\
  Binary64.calc 15000000 0 1 = Some (calc 15000000 0 1) /\
  Binary64.calc 15000000 1 1 = Some (calc 15000000 1 1).
Proof. repeat split; vm_compute; reflexivity. Qed.

(** On every multiple of 2,500,000 VND up to 120,000,000 (beyond both
    contribution caps), in every region and with 0 to 3 dependents, the
    doubles give the result of the exact model. *)
Lemma salary_grid_agrees : salary_grid 48 = true.
Proof. vm_compute. reflexivity. Qed.

(** C2, as stated: for the valid input gross 5,000,030, no dependents,
    region 1 the stored total is 525,003 while the three stored components
    (400,002 + 75,000 + 50,000) add up to 525,002. *)
Lemma breakdown_total_is_not_the_sum_of_its_parts :
  exists r,
    valid_input (mkGrossNetInput 5000030 0 1) /\
    calculate_gross_to_net (mkGrossNetInput 5000030 0 1) = Return r /\
    total (insurance_breakdown r)
    <> (social_insurance (insurance_breakdown r)
        + health_insurance (insurance_breakdown r)
        + unemployment_insurance (insurance_breakdown r))%Z.
Proof.
  eexists. split; [|split].
  - repeat split; cbn; try lia.
  - vm_compute. reflexivity.
  - cbn. discriminate.
Qed.

(** C2, amended: for every valid input the call returns; each of the three
    contributions is rounded on its own; the stored total, which is also the
    result's total_insurance_contribution, is the rounding of the unrounded
    sum [bhxh + bhyt + bhtn] (not the sum of the three rounded values);
    pre_tax_income is computed from that same unrounded sum; and the stored
    total differs from the sum of the three stored components by at most
    2 VND. *)
Theorem breakdown_total_rounds_the_unrounded_sum (data : GrossNetInput) :
  valid_input data ->
  exists r w,
    calculate_gross_to_net data = Return r /\
    dict_get (in_region data) REGIONAL_MINIMUM_WAGES = Some w /\
    let g := in_gross_income data in
    let b := insurance_breakdown r in
    social_insurance b = py_round (bhxh g w) /\
    health_insurance b = py_round (bhyt g w) /\
    unemployment_insurance b = py_round (bhtn g w) /\
    total b = py_round (bhxh g w + bhyt g w + bhtn g w) /\
    total_insurance_contribution r = total b /\
    pre_tax_income r = py_round (g - (bhxh g w + bhyt g w + bhtn g w)) /\
    (Z.abs (total b - (social_insurance b + health_insurance b
                       + unemployment_insurance b)) <= 2)%Z.
Proof.
  intros (_ & _ & Hr).
  destruct (wage_lookup_some _ Hr) as [w E].
  rewrite data_eta. rewrite (calculate_returns _ _ _ w E).
  eexists. exists w. split; [reflexivity|]. split; [exact E|].
  cbn. repeat split. apply round_sum_drift.
Qed.

Lemma breakdown_total_rounds_the_unrounded_sum_witness :
  exists r w,
    calculate_gross_to_net (mkGrossNetInput 5000030 0 1) = Return r /\
    dict_get 1%Z REGIONAL_MINIMUM_WAGES = Some w /\
    total (insurance_breakdown r) = py_round (bhxh 5000030 w + bhyt 5000030 w + bhtn 5000030 w) /\
    (Z.abs (total (insurance_breakdown r)
            - (social_insurance (insurance_breakdown r)
               + health_insurance (insurance_breakdown r)
               + unemployment_insurance (insurance_breakdown r))) <= 2)%Z.
Proof.
  destruct (breakdown_total_rounds_the_unrounded_sum
              (mkGrossNetInput 5000030 0 1)) as (r & w & H1 & H2 & H3).
  - repeat split; cbn; try lia.
  - exists r, w. cbn in H2, H3. tauto.
Defined.

(** ** The net-income identity *)



(** The tolerance is needed: with gross 5,000,031.5 in region 1 the rounded
    fields are 5,000,032, 525,003 and 0, and the net income is 4,475,028,
    one less than their difference; the same happens on doubles. *)
Lemma net_income_identity_drifts_by_one :
  (exists r,
     calc 5000031.5 0 1 = Return r /\
     (net_income r
      - (gross_income r - total_insurance_contribution r
         - personal_income_tax r) = -1)%Z) /\
  Binary64.calc 5000031.5 0 1 = Some (calc 5000031.5 0 1).
Proof.
  split; [eexists; split|]; vm_compute; reflexivity.
Qed.

(** ** Failure *)

Lemma string_length_app (a b : string) :
  String.length (a ++ b) = (String.length a + String.length b)%nat.
Proof. induction a as [|c a IH]; cbn; [reflexivity|now rewrite IH]. Qed.

Lemma string_app_inv_tail (s : string) :
  forall a b : string, (a ++ s = b ++ s)%string -> a = b.
Proof.
  induction a as [|c a IH]; intros [|c' b] H; cbn in H.
  - reflexivity.
  - apply (f_equal String.length) in H. cbn in H.
    rewrite string_length_app in H. lia.
  - apply (f_equal String.length) in H. cbn in H.
    rewrite string_length_app in H. lia.
  - injection H as -> H. f_equal. now apply IH.
Qed.

Lemma to_int_not_nil (z : Z) :
  Z.to_int z <> Decimal.Pos Decimal.Nil /\ Z.to_int z <> Decimal.Neg Decimal.Nil.
Proof.
  destruct z as [|p|p]; cbn; split; try discriminate;
    intros [= H]; revert H; apply Unsigned.to_uint_nonnil.
Qed.

Lemma str_of_Z_inj (z1 z2 : Z) : str_of_Z z1 = str_of_Z z2 -> z1 = z2.
Proof.
  unfold str_of_Z. intros H.
  apply DecimalZ.to_int_inj.
  destruct (to_int_not_nil z1) as [A1 B1], (to_int_not_nil z2) as [A2 B2].
  pose proof (NilZero.isi _ A1 B1) as E1.
  pose proof (NilZero.isi _ A2 B2) as E2.
  rewrite H in E1. congruence.
Qed.



(** The gross income and the dependent count are not validated: a negative
    salary with a negative number of dependents goes through in region 2,
    and region 5 is refused with its number in the message. *)
Lemma invalid_region_examples :
  (exists r, calc (-5) (-3) 2 = Return r) /\
  calc 30000000 1 5
  = Raise (ValueError "Invalid region: 5. Must be 1, 2, 3, or 4.").
Proof. split; [eexists|]; vm_compute; reflexivity. Qed.

(** ** Signs of the output fields *)

(** C5, as stated: gross 1 VND, no dependents, region 1 is a valid input,
    yet the insurance is charged on the minimum wage and pre_tax_income and
    net_income both come out as -520,799. *)
Lemma net_income_can_be_negative :
  exists r,
    valid_input (mkGrossNetInput 1 0 1) /\
    calculate_gross_to_net (mkGrossNetInput 1 0 1) = Return r /\
    (net_income r < 0)%Z /\ (pre_tax_income r < 0)%Z.
Proof.
  eexists. split; [|split].
  - repeat split; cbn; lia.
  - vm_compute. reflexivity.
  - cbn. lia.
Qed.

Lemma total_insurance_nonneg (g : Q) (w : Z) :
  (0 <= w)%Z -> 0 <= total_insurance g w.
Proof.
  intros H. rewrite Zle_Qle in H. change (inject_Z 0) with 0 in H.
  pose proof (total_insurance_bounds g w). lra.
Qed.

(** From the minimum wage upwards the insurance is at most 10.5 percent of
    the gross income. *)
Lemma total_insurance_le_gross (g : Q) (w : Z) :
  (0 <= w)%Z -> inject_Z w <= g -> total_insurance g w <= g.
Proof.
  intros H Hg. rewrite Zle_Qle in H. change (inject_Z 0) with 0 in H.
  pose proof (total_insurance_bounds g w) as [_ U].
  revert U. minmax.
Qed.

(** The tax leaves a non-negative pre-tax income non-negative. *)
Lemma net_nonneg (g : Q) (d w : Z) :
  (0 <= d)%Z -> 0 <= pre_tax g w -> 0 <= net g d w.
Proof.
  intros Hd Hp.
  pose proof (taxable_le_pre_tax g d w Hd Hp) as Ht.
  pose proof (taxable_nonneg g d w) as Hn.
  pose proof (pit_unrounded_le_top_rate _ Hn) as Hu.
  pose proof (pit_unrounded_nonneg (taxable g d w)) as H0.
  pose proof (py_round_bounds (pit_unrounded (taxable g d w))) as Hb.
  rewrite <- pit_of_round in Hb.
  assert (net g d w == pre_tax g w - inject_Z (pit_of (taxable g d w))) as ->
    by (unfold net, pre_tax; lra).
  destruct (Qlt_le_dec 0 (taxable g d w)) as [Pos|Zero].
  - assert (inject_Z (total_allowances d) + taxable g d w <= pre_tax g w) as Hpre.
    { revert Pos. unfold taxable. minmax. }
    assert (11000000 <= inject_Z (total_allowances d)) as Ha.
    { change 11000000 with (inject_Z 11000000). rewrite <- Zle_Qle.
      unfold total_allowances, dependent_allowance_total,
        PERSONAL_ALLOWANCE, DEPENDENT_ALLOWANCE. lia. }
    lra.
  - assert (pit_of (taxable g d w) = 0%Z) as ->.
    { rewrite pit_of_round, (py_round_comp _ 0).
      - apply (py_round_inject_Z 0).
      - apply pit_unrounded_zero, Zero. }
    change (inject_Z 0) with 0. lra.
Qed.

(** C5, amended: for every valid input the call returns and gross_income,
    personal_income_tax, total_insurance_contribution and taxable_income are
    non-negative; pre_tax_income and net_income are non-negative whenever
    the gross income covers the unrounded insurance total, which it does in
    particular from the regional minimum wage upwards. *)
Theorem output_fields_signs (data : GrossNetInput) :
  valid_input data ->
  exists r w,
    calculate_gross_to_net data = Return r /\
    dict_get (in_region data) REGIONAL_MINIMUM_WAGES = Some w /\
    (0 <= gross_income r)%Z /\
    (0 <= personal_income_tax r)%Z /\
    (0 <= total_insurance_contribution r)%Z /\
    (0 <= taxable_income r)%Z /\
    (total_insurance (in_gross_income data) w <= in_gross_income data ->
     (0 <= pre_tax_income r)%Z /\ (0 <= net_income r)%Z) /\
    (inject_Z w <= in_gross_income data ->
     total_insurance (in_gross_income data) w <= in_gross_income data).
Proof.
  intros (Hg & Hd & Hr).
  destruct (wage_lookup_some _ Hr) as [w E].
  destruct (wage_lookup _ _ E) as [_ Hw].
  rewrite data_eta. rewrite (calculate_returns _ _ _ w E).
  eexists. exists w. split; [reflexivity|]. split; [exact E|]. cbn.
  set (g := in_gross_income data) in *. set (d := in_num_dependents data) in *.
  split; [apply py_round_nonneg; lra|].
  split; [apply pit_of_nonneg|].
  split; [apply py_round_nonneg, total_insurance_nonneg; lia|].
  split; [apply py_round_nonneg, taxable_nonneg|].
  split.
  - intros Hc.
    assert (0 <= pre_tax g w) as Hp by (unfold pre_tax; lra).
    split; apply py_round_nonneg; [exact Hp|now apply net_nonneg].
  - apply total_insurance_le_gross. lia.
Qed.

Lemma output_fields_signs_witness :
  exists r,
    calculate_gross_to_net (mkGrossNetInput 30000000 1 1) = Return r /\
    (0 <= gross_income r)%Z /\ (0 <= personal_income_tax r)%Z /\
    (0 <= total_insurance_contribution r)%Z /\ (0 <= taxable_income r)%Z /\
    (0 <= pre_tax_income r)%Z /\ (0 <= net_income r)%Z.
Proof.
  destruct (output_fields_signs (mkGrossNetInput 30000000 1 1))
    as (r & w & H1 & H2 & H3 & H4 & H5 & H6 & H7 & H8).
  - repeat split; cbn; lia.
  - exists r. cbn in H2. injection H2 as <-.
    repeat split; try assumption; apply H7, H8; unfold Qle; cbn; lia.
Defined.

(** ** One more dependent *)




(** ** A higher gross income *)

(** C7: for every valid input the personal income tax is non-negative, and
    with the dependents and the region fixed a gross income that is not
    smaller never carries a smaller tax. *)
Theorem tax_monotone_in_gross (g1 g2 : Q) (d region : Z) :
  valid_input (mkGrossNetInput g1 d region) ->
  g1 <= g2 ->
  exists r1 r2,
    calc g1 d region = Return r1 /\
    calc g2 d region = Return r2 /\
    (0 <= personal_income_tax r1)%Z /\
    (0 <= personal_income_tax r2)%Z /\
    (personal_income_tax r1 <= personal_income_tax r2)%Z.
Proof.
  intros (Hg & Hd & Hr) H. cbn in Hg, Hd, Hr.
  destruct (wage_lookup_some _ Hr) as [w E].
  rewrite !(calculate_returns _ _ _ w E).
  do 2 eexists. split; [reflexivity|]. split; [reflexivity|].
  cbn [personal_income_tax].
  split; [apply pit_of_nonneg|]. split; [apply pit_of_nonneg|].
  now apply pit_of_mono, taxable_mono_gross.
Qed.

Lemma tax_monotone_in_gross_witness :
  exists r1 r2,
    calc 20000000 0 1 = Return r1 /\
    calc 30000000 0 1 = Return r2 /\
    (0 <= personal_income_tax r1)%Z /\
    (0 <= personal_income_tax r2)%Z /\
    (personal_income_tax r1 <= personal_income_tax r2)%Z.
Proof.
  apply (tax_monotone_in_gross 20000000 30000000 0 1).
  - repeat split; cbn; lia.
  - unfold Qle; cbn; lia.
Defined.

(** ** The rounding rule *)

(** A gross income whose social insurance is exactly 400,000.5: the stored
    contribution is the even neighbour 400,000, where rounding half up
    would store 400,001. *)
Lemma tie_goes_to_even :
  bhxh 5000006.25 4960000 == 400000.5 /\
  (exists r, calc 5000006.25 0 1 = Return r /\
             social_insurance (insurance_breakdown r) = 400000%Z) /\
  round_half_up (bhxh 5000006.25 4960000) = 400001%Z.
Proof.
  split; [|split]; [vm_compute; reflexivity | | vm_compute; reflexivity].
  eexists. split; vm_compute; reflexivity.
Qed.

(** C9: for every valid input each of the nine roundings of the call (the
    three contributions, the insurance total, the tax, and the gross, net,
    taxable and pre-tax incomes) is the round-half-to-even image of the
    unrounded local it is taken from: the same rule, that of [round], for
    every rounded field. *)
Theorem one_rounding_rule (data : GrossNetInput) :
  valid_input data ->
  exists r w,
    calculate_gross_to_net data = Return r /\
    dict_get (in_region data) REGIONAL_MINIMUM_WAGES = Some w /\
    let g := in_gross_income data in
    let d := in_num_dependents data in
    let b := insurance_breakdown r in
    half_even_of (bhxh g w) (social_insurance b) /\
    half_even_of (bhyt g w) (health_insurance b) /\
    half_even_of (bhtn g w) (unemployment_insurance b) /\
    half_even_of (total_insurance g w) (total b) /\
    half_even_of (total_insurance g w) (total_insurance_contribution r) /\
    half_even_of (pit_unrounded (taxable g d w)) (personal_income_tax r) /\
    half_even_of g (gross_income r) /\
    half_even_of (net g d w) (net_income r) /\
    half_even_of (taxable g d w) (taxable_income r) /\
    half_even_of (pre_tax g w) (pre_tax_income r).
Proof.
  intros (_ & _ & Hr).
  destruct (wage_lookup_some _ Hr) as [w E].
  rewrite data_eta. rewrite (calculate_returns _ _ _ w E).
  eexists. exists w. split; [reflexivity|]. split; [exact E|]. cbn.
  rewrite pit_of_round.
  repeat split; apply py_round_half_even.
Qed.

Lemma one_rounding_rule_witness :
  exists r,
    calculate_gross_to_net (mkGrossNetInput 5000006.25 0 1) = Return r /\
    half_even_of (bhxh 5000006.25 4960000)
      (social_insurance (insurance_breakdown r)) /\
    half_even_of (net 5000006.25 0 4960000) (net_income r).
Proof.
  destruct (one_rounding_rule (mkGrossNetInput 5000006.25 0 1))
    as (r & w & H1 & H2 & H3).
  - repeat split; cbn; lia.
  - exists r. cbn in H2. injection H2 as <-.
    destruct H3 as (A & _ & _ & _ & _ & _ & _ & B & _).
    split; [exact H1|]. split; [exact A|exact B].
Defined.

(** ** The batch loop *)

Lemma string_app_assoc (a b c : string) :
  ((a ++ b) ++ c = a ++ (b ++ c))%string.
Proof. induction a as [|x a IH]; cbn; [reflexivity|now rewrite IH]. Qed.

Lemma last_app_nonempty {A : Type} (l m : list A) (d : A) :
  m <> [] -> last (l ++ m) d = last m d.
Proof.
  intros Hm. induction l as [|x l IH]; [reflexivity|].
  cbn [app last]. destruct (l ++ m) eqn:E; [|exact IH].
  apply app_eq_nil in E. tauto.
Qed.

Lemma split_on_nonempty (sep : ascii) (s : string) : split_on sep s <> [].
Proof.
  destruct s as [|c s]; cbn; [discriminate|].
  destruct (Ascii.eqb c sep); [discriminate|].
  destruct (split_on sep s); discriminate.
Qed.

(** Splitting at a separator: the segments after it are those of the rest. *)
Lemma split_on_app (sep : ascii) (a b : string) :
  exists l, l <> [] /\
    split_on sep (a ++ String sep b) = l ++ split_on sep b.
Proof.
  induction a as [|c a (l & Hl & IH)]; cbn [append split_on].
  - rewrite Ascii.eqb_refl. exists [EmptyString]. split; [discriminate|reflexivity].
  - destruct (Ascii.eqb c sep).
    + exists (EmptyString :: l). split; [discriminate|]. now rewrite IH.
    + rewrite IH. destruct l as [|seg l]; [tauto|].
      exists (String c seg :: l). split; [discriminate|reflexivity].
Qed.

(** [split(':')[-1]] only sees what follows the last colon. *)
Lemma last_segment_app (a b : string) :
  last (split_on ":" (a ++ String ":" b)) EmptyString
  = last (split_on ":" b) EmptyString.
Proof.
  destruct (split_on_app ":" a b) as (l & _ & ->).
  apply last_app_nonempty, split_on_nonempty.
Qed.

(** The message shown for a [ValueError] is its text after the last colon,
    behind the words "ValueError - " when the text has no colon. *)
Lemma shown_message_value_error (index : Z) (msg : string) :
  shown_message (error_msg_of index (ValueError msg))
  = strip (last (split_on ":" (" ValueError - " ++ msg)) EmptyString).
Proof.
  assert (error_msg_of index (ValueError msg)
          = (("Row " ++ str_of_Z (index + 2))
             ++ String ":" (" ValueError - " ++ msg))%string) as ->
    by (unfold error_msg_of; rewrite string_app_assoc; reflexivity).
  unfold shown_message. rewrite last_segment_app. reflexivity.
Qed.

Section BatchProperties.
Variable text : PyFloat -> Z -> Z -> string.





(** The loop appends one result per row, in order. *)
Lemma batch_loop_acc (rows : list Row) :
  forall index acc,
    batch_loop text index rows acc = acc ++ batch_loop text index rows [].
Proof.
  induction rows as [|row rest IH]; intros index acc; cbn.
  - now rewrite app_nil_r.
  - rewrite (IH _ (acc ++ _)), (IH _ [_]). now rewrite <- app_assoc.
Qed.

Lemma batch_loop_cons (index : Z) (row : Row) (rest : list Row) :
  batch_loop text index (row :: rest) []
  = process_row text index row :: batch_loop text (index + 1) rest [].
Proof. cbn. now rewrite batch_loop_acc. Qed.


End BatchProperties.

(** The batch scenario of the design document: three rows, the second with
    region 5.  Only that row fails, with the message of line 347. *)
Lemma batch_scenario :
  let rows := [ mkRow (CInt 30000000) (CInt 1) (CInt 1);
                mkRow (CInt 20000000) (CInt 0) (CInt 5);
                mkRow (CFloat 50000000) (CInt 2) (CInt 2) ] in
  let out := process_batch (fun _ _ _ => EmptyString) rows in
  map fst out = rows /\
  map (fun o => CalculationStatus (snd o)) out
  = ["Success"; "Error"; "Success"]%string /\
  map (fun o => ErrorMessage (snd o)) out
  = [""; "ValueError - Invalid input value(s) in row."; ""]%string /\
  map (fun o => NetIncome (snd o)) out
  = [Some 25882500; None; Some 41653200]%Z.
Proof. repeat split; vm_compute; reflexivity. Qed.



(** * Further properties of the calculator *)

(** ** The regimes of the insurance base *)

Lemma wage_cases (region w : Z) :
  dict_get region REGIONAL_MINIMUM_WAGES = Some w ->
  (region = 1 /\ w = 4960000)%Z \/ (region = 2 /\ w = 4410000)%Z \/
  (region = 3 /\ w = 3860000)%Z \/ (region = 4 /\ w = 3450000)%Z.
Proof.
  unfold REGIONAL_MINIMUM_WAGES; cbn [dict_get].
  repeat match goal with
         | |- context [(region =? ?k)%Z] =>
             destruct (Z.eqb_spec region k) as [->|_];
             [intros [= <-]; tauto|]
         end.
  discriminate.
Qed.

Lemma pit_of_comp (t1 t2 : Q) : t1 == t2 -> pit_of t1 = pit_of t2.
Proof.
  intros E. rewrite !pit_of_round.
  apply py_round_comp, pit_unrounded_comp, E.
Qed.

(** Every minimum wage and both caps are whole multiples of 200 VND, the
    amount on which the three rates give whole numbers. *)
Lemma wage_multiple_of_200 (region w : Z) :
  dict_get region REGIONAL_MINIMUM_WAGES = Some w ->
  exists m, (w = 200 * m)%Z.
Proof.
  intros H. destruct (wage_cases _ _ H) as [[_ ->]|[[_ ->]|[[_ ->]|[_ ->]]]];
    [exists 24800%Z|exists 22050%Z|exists 19300%Z|exists 17250%Z]; reflexivity.
Qed.

(** The two salary bases with the caps written out as numbers. *)
Ltac unfold_bases :=
  unfold salary_base_bhxh_bhyt, salary_base_bhtn, insurance_base,
    bhxh_bhyt_cap, bhtn_cap, BHXH_BHYT_MAX_BASE, BHTN_CAP_MULTIPLIER in *;
  rewrite ?inject_Z_mult in *;
  change (inject_Z BASE_SALARY_FOR_CAPS) with 2340000 in *;
  change (inject_Z BHXH_BHYT_CAP_MULTIPLIER) with 20 in *;
  change (inject_Z 20) with 20 in *.

(** The unrounded locals in the three regimes of the gross income. *)
Lemma bases_below_minimum_wage (g : Q) (w : Z) :
  (0 <= w)%Z -> inject_Z w <= 46800000 -> g <= inject_Z w ->
  insurance_base g w == inject_Z w /\
  salary_base_bhxh_bhyt g w == inject_Z w /\
  salary_base_bhtn g w == inject_Z w.
Proof.
  intros Hw Hc Hg. rewrite Zle_Qle in Hw. change (inject_Z 0) with 0 in Hw.
  unfold_bases. repeat split; minmax.
Qed.

Lemma bases_between (g : Q) (w : Z) :
  inject_Z w <= 46800000 -> inject_Z w <= g -> g <= inject_Z w * 20 ->
  insurance_base g w == g /\
  salary_base_bhxh_bhyt g w == py_min g 46800000 /\
  salary_base_bhtn g w == g.
Proof.
  intros Hc Hg Hu.
  unfold_bases. repeat split; minmax.
Qed.

Lemma bases_above_caps (g : Q) (w : Z) :
  (0 <= w)%Z -> inject_Z w <= 46800000 -> 46800000 <= inject_Z w * 20 ->
  inject_Z w * 20 <= g ->
  salary_base_bhxh_bhyt g w == 46800000 /\
  salary_base_bhtn g w == inject_Z w * 20.
Proof.
  intros Hw Hc Hc' Hg. rewrite Zle_Qle in Hw. change (inject_Z 0) with 0 in Hw.
  unfold_bases. repeat split; minmax.
Qed.

Lemma py_round_exact (x : Q) (z : Z) : x == inject_Z z -> py_round x = z.
Proof. intros E. rewrite (py_round_comp _ _ E). apply py_round_inject_Z. Qed.

(** Both salary bases lie between the minimum wage and their caps. *)
Lemma salary_bases_range (g : Q) (w : Z) :
  (0 <= w)%Z -> inject_Z w <= 46800000 ->
  inject_Z w <= salary_base_bhxh_bhyt g w <= 46800000 /\
  inject_Z w <= salary_base_bhtn g w <= inject_Z w * 20.
Proof.
  intros Hw Hc. rewrite Zle_Qle in Hw. change (inject_Z 0) with 0 in Hw.
  unfold_bases. repeat split; minmax.
Qed.

(** X1: in every region the three employee contributions lie between their
    amounts on the regional minimum wage [w] (8, 1.5 and 1 percent of [w])
    and their capped amounts (3,744,000 and 702,000 on the base of
    46,800,000, and [w / 5] on the base of 20 minimum wages), whatever the
    gross income is. *)
Theorem contributions_between_floor_and_cap (g : Q) (d region w : Z) :
  dict_get region REGIONAL_MINIMUM_WAGES = Some w ->
  exists r,
    calc g d region = Return r /\
    let b := insurance_breakdown r in
    (w * 8 / 100 <= social_insurance b <= 3744000)%Z /\
    (w * 15 / 1000 <= health_insurance b <= 702000)%Z /\
    (w / 100 <= unemployment_insurance b <= w / 5)%Z /\
    (w * 105 / 1000 <= total b <= 4446000 + w / 5)%Z.
Proof.
  intros E. rewrite (calculate_returns _ _ _ w E).
  eexists. split; [reflexivity|].
  cbn [insurance_breakdown make_insurance_breakdown social_insurance
       health_insurance unemployment_insurance total].
  assert ((0 <= w)%Z /\ inject_Z w <= 46800000) as [Hw Hc].
  { destruct (wage_cases _ _ E) as [[_ ->]|[[_ ->]|[[_ ->]|[_ ->]]]];
      split; try lia; unfold Qle; cbn; lia. }
  destruct (salary_bases_range g w Hw Hc) as [[L1 U1] [L2 U2]].
  assert (exists m, w = 200 * m)%Z as [m ->]
    by (apply (wage_multiple_of_200 region), E).
  replace (200 * m * 8 / 100)%Z with (16 * m)%Z by (apply Z.div_unique_exact; lia).
  replace (200 * m * 15 / 1000)%Z with (3 * m)%Z by (apply Z.div_unique_exact; lia).
  replace (200 * m / 100)%Z with (2 * m)%Z by (apply Z.div_unique_exact; lia).
  replace (200 * m / 5)%Z with (40 * m)%Z by (apply Z.div_unique_exact; lia).
  replace (200 * m * 105 / 1000)%Z with (21 * m)%Z by (apply Z.div_unique_exact; lia).
  rewrite inject_Z_mult in *. change (inject_Z 200) with 200 in *.
  unfold total_insurance, bhxh, bhyt, bhtn, RATE_SOCIAL_INSURANCE,
    RATE_HEALTH_INSURANCE, RATE_UNEMPLOYMENT_INSURANCE.
  set (b1 := salary_base_bhxh_bhyt g _) in *.
  set (b2 := salary_base_bhtn g _) in *.
  repeat split.
  - rewrite <- (py_round_inject_Z (16 * m)). apply py_round_mono.
    rewrite inject_Z_mult. change (inject_Z 16) with 16. lra.
  - rewrite <- (py_round_inject_Z 3744000). apply py_round_mono.
    change (inject_Z 3744000) with 3744000. lra.
  - rewrite <- (py_round_inject_Z (3 * m)). apply py_round_mono.
    rewrite inject_Z_mult. change (inject_Z 3) with 3. lra.
  - rewrite <- (py_round_inject_Z 702000). apply py_round_mono.
    change (inject_Z 702000) with 702000. lra.
  - rewrite <- (py_round_inject_Z (2 * m)). apply py_round_mono.
    rewrite inject_Z_mult. change (inject_Z 2) with 2. lra.
  - rewrite <- (py_round_inject_Z (40 * m)). apply py_round_mono.
    rewrite inject_Z_mult. change (inject_Z 40) with 40. lra.
  - rewrite <- (py_round_inject_Z (21 * m)). apply py_round_mono.
    rewrite inject_Z_mult. change (inject_Z 21) with 21. lra.
  - rewrite <- (py_round_inject_Z (4446000 + 40 * m)). apply py_round_mono.
    rewrite inject_Z_plus, inject_Z_mult.
    change (inject_Z 40) with 40. change (inject_Z 4446000) with 4446000. lra.
Qed.

Lemma contributions_between_floor_and_cap_witness :
  exists r,
    calc 30000000 1 1 = Return r /\
    (396800 <= social_insurance (insurance_breakdown r) <= 3744000)%Z /\
    (49600 <= unemployment_insurance (insurance_breakdown r) <= 992000)%Z.
Proof.
  destruct (contributions_between_floor_and_cap 30000000 1 1 4960000 eq_refl)
    as (r & H & A & _ & B & _).
  exists r. split; [exact H|]. split; [exact A|exact B].
Defined.

(** X2: at or below the regional minimum wage the contributions are those
    on the minimum wage, and from 20 minimum wages upwards they are the
    capped ones: outside that band the breakdown does not depend on the
    gross income. *)
Theorem contributions_fixed_outside_the_band (g : Q) (d region w : Z) :
  dict_get region REGIONAL_MINIMUM_WAGES = Some w ->
  exists r,
    calc g d region = Return r /\
    (g <= inject_Z w ->
     insurance_breakdown r
     = mkInsuranceBreakdown (w * 8 / 100) (w * 15 / 1000) (w / 100)
         (w * 105 / 1000)) /\
    (inject_Z (bhtn_cap w) <= g ->
     insurance_breakdown r
     = mkInsuranceBreakdown 3744000 702000 (w / 5) (4446000 + w / 5)).
Proof.
  intros E. rewrite (calculate_returns _ _ _ w E).
  eexists. split; [reflexivity|].
  cbn [insurance_breakdown]. unfold make_insurance_breakdown.
  assert ((0 <= w)%Z /\ inject_Z w <= 46800000
          /\ 46800000 <= inject_Z w * 20) as (Hw & Hc & Hc').
  { destruct (wage_cases _ _ E) as [[_ ->]|[[_ ->]|[[_ ->]|[_ ->]]]];
      repeat split; try lia; unfold Qle; cbn; lia. }
  unfold total_insurance, bhxh, bhyt, bhtn, RATE_SOCIAL_INSURANCE,
    RATE_HEALTH_INSURANCE, RATE_UNEMPLOYMENT_INSURANCE.
  split; intros Hg.
  - destruct (bases_below_minimum_wage g w Hw Hc Hg) as (_ & B1 & B2).
    destruct (wage_cases _ _ E) as [[_ ->]|[[_ ->]|[[_ ->]|[_ ->]]]];
      f_equal; apply py_round_exact; rewrite ?B1, ?B2; reflexivity.
  - unfold bhtn_cap, BHTN_CAP_MULTIPLIER in Hg. rewrite inject_Z_mult in Hg.
    change (inject_Z 20) with 20 in Hg.
    destruct (bases_above_caps g w Hw Hc Hc' Hg) as (B1 & B2).
    destruct (wage_cases _ _ E) as [[_ ->]|[[_ ->]|[[_ ->]|[_ ->]]]];
      f_equal; apply py_round_exact; rewrite ?B1, ?B2; reflexivity.
Qed.

Lemma contributions_fixed_outside_the_band_witness :
  exists r,
    calc 150000000 0 1 = Return r /\
    insurance_breakdown r
    = mkInsuranceBreakdown 3744000 702000 992000 5438000.
Proof.
  destruct (contributions_fixed_outside_the_band 150000000 0 1 4960000 eq_refl)
    as (r & H & _ & A).
  exists r. split; [exact H|]. apply A. unfold Qle; cbn; lia.
Defined.

(** X3: from the highest minimum wage (4,960,000) up to 20 times the lowest
    one (69,000,000) neither a floor nor a region-dependent cap binds, and
    the whole result is the same in all four regions. *)
Theorem same_result_in_every_region (g : Q) (d r1 r2 : Z) :
  (1 <= r1 <= 4)%Z -> (1 <= r2 <= 4)%Z ->
  4960000 <= g -> g <= 69000000 ->
  calc g d r1 = calc g d r2.
Proof.
  intros H1 H2 Lo Hi.
  destruct (wage_lookup_some _ H1) as [w1 E1].
  destruct (wage_lookup_some _ H2) as [w2 E2].
  rewrite (calculate_returns _ _ _ w1 E1), (calculate_returns _ _ _ w2 E2).
  assert (forall region w, dict_get region REGIONAL_MINIMUM_WAGES = Some w ->
            salary_base_bhxh_bhyt g w == py_min g 46800000 /\
            salary_base_bhtn g w == g) as B.
  { intros region w E.
    assert (inject_Z w <= 46800000 /\ inject_Z w <= g /\ g <= inject_Z w * 20)
      as (A1 & A2 & A3).
    { destruct (wage_cases _ _ E) as [[_ ->]|[[_ ->]|[[_ ->]|[_ ->]]]];
        repeat split;
        try (apply (Qle_trans _ 4960000); [unfold Qle; cbn; lia|exact Lo]);
        try (apply (Qle_trans _ 69000000); [exact Hi|unfold Qle; cbn; lia]);
        unfold Qle; cbn; lia. }
    destruct (bases_between g w A1 A2 A3) as (_ & ? & ?). now split. }
  destruct (B _ _ E1) as [X1 Y1]. destruct (B _ _ E2) as [X2 Y2].
  assert (bhxh g w1 == bhxh g w2) as Ex by (unfold bhxh; rewrite X1, X2; reflexivity).
  assert (bhyt g w1 == bhyt g w2) as Ey by (unfold bhyt; rewrite X1, X2; reflexivity).
  assert (bhtn g w1 == bhtn g w2) as En by (unfold bhtn; rewrite Y1, Y2; reflexivity).
  assert (total_insurance g w1 == total_insurance g w2) as Et
    by (unfold total_insurance; rewrite Ex, Ey, En; reflexivity).
  assert (pre_tax g w1 == pre_tax g w2) as Ep
    by (unfold pre_tax; rewrite Et; reflexivity).
  assert (taxable g d w1 == taxable g d w2) as Ea
    by (unfold taxable; revert Ep; minmax).
  assert (pit_of (taxable g d w1) = pit_of (taxable g d w2)) as Ei
    by (apply pit_of_comp, Ea).
  assert (net g d w1 == net g d w2) as Ee
    by (unfold net; rewrite Ei, Et; reflexivity).
  unfold make_insurance_breakdown.
  rewrite Ei, (py_round_comp _ _ Ex), (py_round_comp _ _ Ey),
    (py_round_comp _ _ En), (py_round_comp _ _ Et), (py_round_comp _ _ Ep),
    (py_round_comp _ _ Ea), (py_round_comp _ _ Ee).
  reflexivity.
Qed.

Lemma same_result_in_every_region_witness :
  calc 30000000 1 1 = calc 30000000 1 4.
Proof.
  apply (same_result_in_every_region 30000000 1 1 4);
    try lia; unfold Qle; cbn; lia.
Defined.

(** ** Salaries in whole multiples of 200 VND *)



(** Sums and differences of integers, read in the rationals. *)
Ltac push_inject :=
  unfold Z.sub; repeat (rewrite inject_Z_plus || rewrite inject_Z_opp).




(** ** Below the allowances *)

Lemma total_allowances_at_least_personal (d : Z) :
  (0 <= d)%Z -> 11000000 <= inject_Z (total_allowances d).
Proof.
  intros Hd. change 11000000 with (inject_Z 11000000). rewrite <- Zle_Qle.
  unfold total_allowances, dependent_allowance_total,
    PERSONAL_ALLOWANCE, DEPENDENT_ALLOWANCE. lia.
Qed.

(** Up to the first cap the insurance takes at least 10.5 percent of the
    gross income. *)
Lemma pre_tax_at_most_895_per_mille (g : Q) (w : Z) :
  (3450000 <= w <= 4960000)%Z -> g <= 46800000 ->
  pre_tax g w <= (895 # 1000) * g.
Proof.
  intros [Lo Hi] Hg. rewrite Zle_Qle in Lo, Hi.
  change (inject_Z 3450000) with 3450000 in Lo.
  change (inject_Z 4960000) with 4960000 in Hi.
  unfold pre_tax, total_insurance, bhxh, bhyt, bhtn, RATE_SOCIAL_INSURANCE,
    RATE_HEALTH_INSURANCE, RATE_UNEMPLOYMENT_INSURANCE.
  unfold_bases. minmax.
Qed.

(** X5: for every valid input whose pre-tax income does not exceed the
    allowances (11,000,000 plus 4,400,000 per dependent) the taxable income
    and the tax are 0 and the net income is the pre-tax income; this is the
    case, in every region and for every number of dependents, for every gross
    income up to 12,290,502 VND. *)
Theorem no_tax_up_to_the_allowances (g : Q) (d region : Z) :
  valid_input (mkGrossNetInput g d region) ->
  exists r w,
    calc g d region = Return r /\
    dict_get region REGIONAL_MINIMUM_WAGES = Some w /\
    (pre_tax g w <= inject_Z (total_allowances d) ->
     taxable_income r = 0%Z /\ personal_income_tax r = 0%Z /\
     net_income r = pre_tax_income r) /\
    (g <= 12290502 -> pre_tax g w <= inject_Z (total_allowances d)).
Proof.
  intros (Hg & Hd & Hr). cbn in Hg, Hd, Hr.
  destruct (wage_lookup_some _ Hr) as [w E].
  destruct (wage_lookup _ _ E) as [_ Hw].
  rewrite (calculate_returns _ _ _ w E).
  eexists. exists w. split; [reflexivity|]. split; [exact E|].
  cbn [taxable_income personal_income_tax net_income pre_tax_income].
  pose proof (total_allowances_at_least_personal d Hd) as Ha.
  split.
  - intros Hc. pose proof (taxable_clamped g d w Hc) as T0.
    assert (pit_of (taxable g d w) = 0%Z) as P0.
    { rewrite (pit_of_comp _ 0 T0), pit_of_round.
      apply (py_round_exact _ 0), pit_unrounded_zero. lra. }
    split; [apply (py_round_exact _ 0), T0|]. split; [exact P0|].
    apply py_round_comp. unfold net, pre_tax. rewrite P0.
    change (inject_Z 0) with 0. lra.
  - intros Hs.
    assert (g <= 46800000) as Hc by lra.
    pose proof (pre_tax_at_most_895_per_mille g w Hw Hc). lra.
Qed.

Lemma no_tax_up_to_the_allowances_witness :
  exists r,
    calc 12000000 0 3 = Return r /\
    personal_income_tax r = 0%Z /\ net_income r = pre_tax_income r.
Proof.
  destruct (no_tax_up_to_the_allowances 12000000 0 3)
    as (r & w & H & _ & A & B).
  - repeat split; cbn; lia.
  - exists r. split; [exact H|]. apply A, B. unfold Qle; cbn; lia.
Defined.

(** ** The order of the amounts *)

(** X6: for every valid input net_income <= pre_tax_income <= gross_income,
    and taxable_income never exceeds the larger of 0 and pre_tax_income. *)
Theorem amounts_are_ordered (data : GrossNetInput) :
  valid_input data ->
  exists r,
    calculate_gross_to_net data = Return r /\
    (net_income r <= pre_tax_income r <= gross_income r)%Z /\
    (taxable_income r <= Z.max 0 (pre_tax_income r))%Z.
Proof.
  intros (Hg & Hd & Hr).
  destruct (wage_lookup_some _ Hr) as [w E].
  destruct (wage_lookup _ _ E) as [_ Hw].
  rewrite data_eta. rewrite (calculate_returns _ _ _ w E).
  eexists. split; [reflexivity|].
  cbn [net_income pre_tax_income gross_income taxable_income].
  set (g := in_gross_income data) in *. set (d := in_num_dependents data) in *.
  pose proof (total_insurance_nonneg g w ltac:(lia)) as Ti.
  pose proof (pit_of_nonneg (taxable g d w)) as Pi.
  rewrite Zle_Qle in Pi. change (inject_Z 0) with 0 in Pi.
  pose proof (total_allowances_at_least_personal d Hd) as Ha.
  split; [split|].
  - apply py_round_mono. unfold net, pre_tax. lra.
  - apply py_round_mono. unfold pre_tax. lra.
  - destruct (Qlt_le_dec (pre_tax g w) 0) as [Neg|Pos].
    + rewrite (py_round_exact (taxable g d w) 0); [lia|].
      apply taxable_clamped. lra.
    + etransitivity; [|apply Z.le_max_r].
      apply py_round_mono, taxable_le_pre_tax; assumption.
Qed.

Lemma amounts_are_ordered_witness :
  exists r,
    calculate_gross_to_net (mkGrossNetInput 1 0 1) = Return r /\
    (net_income r <= pre_tax_income r <= gross_income r)%Z /\
    (taxable_income r <= Z.max 0 (pre_tax_income r))%Z.
Proof.
  apply (amounts_are_ordered (mkGrossNetInput 1 0 1)).
  repeat split; cbn; lia.
Defined.

(** ** Marginal rates *)

Section MarginalRate.
Variable top : Q.
Hypothesis top_nonneg : 0 <= top.

(** On a well-formed table an extra amount of income is taxed at no more
    than the top rate. *)
Lemma pit_loop_lipschitz (brackets : list Bracket) :
  forall p t1 t2,
    well_formed top (Finite p) brackets ->
    t1 <= t2 ->
    pit_loop t2 brackets 0 (Finite p) - pit_loop t1 brackets 0 (Finite p)
    <= top * (t2 - t1).
Proof.
  induction brackets as [|b rest IH]; intros p t1 t2 WF H.
  - cbn. assert (0 <= top * (t2 - t1)) by (apply Qmult_le_0_compat; lra). lra.
  - pose proof (pit_loop_bounds top top_nonneg (b :: rest) p t2 WF) as [_ U2].
    destruct WF as (R0 & R1 & L & WF).
    rewrite pit_loop_step in U2. rewrite !pit_loop_step.
    assert (0 <= top * (t2 - t1)) as Hn by (apply Qmult_le_0_compat; lra).
    destruct (Qgt_bool t2 p) eqn:C2.
    2:{ apply Qgt_bool_false in C2.
        assert (Qgt_bool t1 p = false) as -> by (apply Qgt_bool_false; lra).
        lra. }
    apply Qgt_bool_true in C2.
    destruct (Qgt_bool t1 p) eqn:C1.
    2:{ apply Qgt_bool_false in C1.
        specialize (U2 (Qlt_le_weak _ _ C2)).
        assert (top * (t2 - p) <= top * (t2 - t1))
          by (apply Qmult_le_scale; lra).
        lra. }
    apply Qgt_bool_true in C1.
    destruct (limit b) as [q|] eqn:El; cbn [min_limit limit_le] in *.
    + pose proof (pit_loop_bounds top top_nonneg rest q t2 WF) as [_ V2].
      destruct (Qlt_le_dec q t1) as [Q1|Q1].
      * specialize (IH q t1 t2 WF H).
        assert (py_min t1 q == q) as -> by minmax.
        assert (py_min t2 q == q) as -> by minmax.
        lra.
      * rewrite (pit_loop_break t1 rest (Finite q))
          by (cbn; now apply Qle_bool_iff).
        assert (py_min t1 q == t1) as -> by minmax.
        destruct (Qlt_le_dec q t2) as [Q2|Q2].
        -- assert (py_min t2 q == q) as -> by minmax.
           specialize (V2 (Qlt_le_weak _ _ Q2)).
           assert ((q - t1) * rate b <= (q - t1) * top)
             by (apply Qmult_le_scale; lra).
           lra.
        -- rewrite (pit_loop_break t2 rest (Finite q))
             by (cbn; now apply Qle_bool_iff).
           assert (py_min t2 q == t2) as -> by minmax.
           assert ((t2 - t1) * rate b <= (t2 - t1) * top)
             by (apply Qmult_le_scale; lra).
           lra.
    + rewrite !(pit_loop_break _ rest Infinity) by reflexivity.
      assert ((t2 - t1) * rate b <= (t2 - t1) * top)
        by (apply Qmult_le_scale; lra).
      lra.
Qed.
End MarginalRate.

(** No slice of taxable income is taxed at more than 35 percent. *)
Lemma pit_unrounded_lipschitz (t1 t2 : Q) :
  t1 <= t2 ->
  pit_unrounded t2 - pit_unrounded t1 <= (35 # 100) * (t2 - t1).
Proof.
  apply (pit_loop_lipschitz (35 # 100));
    [lra|apply pit_brackets_well_formed].
Qed.



(** The taxable income grows no faster than the pre-tax income. *)
Lemma taxable_lipschitz (g1 g2 : Q) (d w : Z) :
  pre_tax g1 w <= pre_tax g2 w ->
  taxable g2 d w - taxable g1 d w <= pre_tax g2 w - pre_tax g1 w.
Proof. intros H. unfold taxable. minmax. Qed.

(** A rounded amount exceeds another minus one as soon as the unrounded
    one does, strictly. *)
Lemma py_round_gt_pred (x y : Q) :
  x - 1 < y -> (py_round x - 1 <= py_round y)%Z.
Proof.
  intros H.
  pose proof (py_round_bounds x) as Bx. pose proof (py_round_bounds y) as By.
  assert (inject_Z (py_round x - 2) < inject_Z (py_round y)) as L
    by (unfold Z.sub; rewrite inject_Z_plus, inject_Z_opp;
        change (inject_Z 2) with 2; lra).
  rewrite <- Zlt_Qlt in L. lia.
Qed.

(** X8: for every valid input a higher gross income (same dependents and
    region) lowers the net income by at most 1 VND, and not at all when the
    raise is of 2 VND or more. *)
Theorem a_raise_costs_at_most_one_dong (g1 g2 : Q) (d region : Z) :
  valid_input (mkGrossNetInput g1 d region) ->
  g1 <= g2 ->
  exists r1 r2,
    calc g1 d region = Return r1 /\
    calc g2 d region = Return r2 /\
    (net_income r1 - 1 <= net_income r2)%Z /\
    (g1 + 2 <= g2 -> (net_income r1 <= net_income r2)%Z).
Proof.
  intros (Hg & Hd & Hr) H. cbn in Hg, Hd, Hr.
  destruct (wage_lookup_some _ Hr) as [w E].
  rewrite !(calculate_returns _ _ _ w E).
  do 2 eexists. split; [reflexivity|]. split; [reflexivity|].
  cbn [net_income].
  destruct (total_insurance_lipschitz g1 g2 w H) as [_ Li].
  pose proof (pre_tax_mono g1 g2 w H) as Pm.
  pose proof (taxable_mono_gross g1 g2 d w H) as Tm.
  pose proof (taxable_lipschitz g1 g2 d w Pm) as Tl.
  pose proof (pit_unrounded_lipschitz _ _ Tm) as Pl.
  pose proof (py_round_bounds (pit_unrounded (taxable g1 d w))) as B1.
  pose proof (py_round_bounds (pit_unrounded (taxable g2 d w))) as B2.
  rewrite <- pit_of_round in B1, B2.
  assert (pre_tax g2 w - pre_tax g1 w >= (895 # 1000) * (g2 - g1)) as Pg
    by (unfold pre_tax; lra).
  split.
  - destruct (Qlt_le_dec g1 g2) as [Lt|Ge].
    + apply py_round_gt_pred. unfold net, pre_tax in *. lra.
    + assert (taxable g1 d w == taxable g2 d w) as Et.
      { pose proof (taxable_mono_gross g2 g1 d w Ge). lra. }
      assert (total_insurance g1 w == total_insurance g2 w) as Ei.
      { destruct (total_insurance_lipschitz g2 g1 w Ge) as [_ ?]. lra. }
      assert (py_round (net g1 d w) = py_round (net g2 d w)) as ->; [|lia].
      apply py_round_comp. unfold net.
      rewrite (pit_of_comp _ _ Et), Ei. lra.
  - intros H2. apply py_round_mono. unfold net, pre_tax in *. lra.
Qed.

Lemma a_raise_costs_at_most_one_dong_witness :
  exists r1 r2,
    calc 12290804 0 1 = Return r1 /\
    calc 12290805 0 1 = Return r2 /\
    (net_income r1 - 1 <= net_income r2)%Z.
Proof.
  destruct (a_raise_costs_at_most_one_dong 12290804 12290805 0 1)
    as (r1 & r2 & H1 & H2 & A & _).
  - repeat split; cbn; lia.
  - unfold Qle; cbn; lia.
  - exists r1, r2. split; [exact H1|]. split; [exact H2|exact A].
Defined.

(** The loss of 1 VND happens: the tax on a gross income of 12,290,805 is
    rounded up to 14 where that on 12,290,804 is rounded down to 13, and the
    net income falls from 11,000,257 to 11,000,256; on doubles as well. *)
Lemma a_raise_can_cost_one_dong :
  (exists r1 r2,
     calc 12290804 0 1 = Return r1 /\ calc 12290805 0 1 = Return r2 /\
     net_income r1 = 11000257%Z /\ net_income r2 = 11000256%Z) /\
  Binary64.calc 12290804 0 1 = Some (calc 12290804 0 1) /\
  Binary64.calc 12290805 0 1 = Some (calc 12290805 0 1).
Proof.
  split; [do 2 eexists|split]; repeat split; vm_compute; reflexivity.
Qed.

(** ** Dependents and the net income *)




(** ** The share that is kept *)

(** X10: for every valid input with a gross income of at least the regional
    minimum wage, insurance takes at most 10.5 percent of the gross income
    and insurance and tax together at most 42 percent: on the rounded
    fields, 1000 * total_insurance_contribution <= 105 * gross_income + 1000
    and 100 * net_income >= 58 * gross_income - 200. *)
Theorem at_least_58_percent_is_kept (g : Q) (d region w : Z) :
  valid_input (mkGrossNetInput g d region) ->
  dict_get region REGIONAL_MINIMUM_WAGES = Some w ->
  inject_Z w <= g ->
  exists r,
    calc g d region = Return r /\
    (1000 * total_insurance_contribution r
     <= 105 * gross_income r + 1000)%Z /\
    (58 * gross_income r - 200 <= 100 * net_income r)%Z.
Proof.
  intros (Hg & Hd & Hr) E Hw. cbn in Hg, Hd, Hr.
  rewrite (calculate_returns _ _ _ w E).
  eexists. split; [reflexivity|].
  cbn [total_insurance_contribution insurance_breakdown
       make_insurance_breakdown total gross_income net_income].
  destruct (wage_lookup _ _ E) as [_ Bw].
  pose proof (total_insurance_bounds g w) as [_ Ti].
  assert (py_max g (inject_Z w) == g) as Em by minmax.
  rewrite Em in Ti.
  assert (0 <= pre_tax g w) as Hp by (unfold pre_tax; lra).
  pose proof (taxable_le_pre_tax g d w Hd Hp) as Tt.
  pose proof (taxable_nonneg g d w) as Tn.
  pose proof (pit_unrounded_le_top_rate _ Tn) as Pu.
  pose proof (py_round_bounds (pit_unrounded (taxable g d w))) as Bp.
  rewrite <- pit_of_round in Bp.
  pose proof (py_round_bounds g) as Bg.
  pose proof (py_round_bounds (total_insurance g w)) as Bt.
  pose proof (py_round_bounds (net g d w)) as Bn.
  split; rewrite Zle_Qle; push_inject;
    rewrite ?inject_Z_mult;
    change (inject_Z 1000) with 1000; change (inject_Z 105) with 105;
    change (inject_Z 58) with 58; change (inject_Z 200) with 200;
    change (inject_Z 100) with 100;
    unfold net, pre_tax in *; lra.
Qed.

Lemma at_least_58_percent_is_kept_witness :
  exists r,
    calc 30000000 1 1 = Return r /\
    (58 * gross_income r - 200 <= 100 * net_income r)%Z.
Proof.
  destruct (at_least_58_percent_is_kept 30000000 1 1 4960000)
    as (r & H & _ & A).
  - repeat split; cbn; lia.
  - reflexivity.
  - unfold Qle; cbn; lia.
  - exists r. split; [exact H|exact A].
Defined.

(** * Further properties of the surrounding code *)

(** ** Validation of the input model *)

Section Validation.
Variable text : PyFloat -> Z -> Z -> string.

End Validation.

(** ** The HTTP endpoint *)


(** ** The outcome of a batch row *)

Lemma existsb_rev {A : Type} (f : A -> bool) (l : list A) :
  existsb f (rev l) = existsb f l.
Proof.
  induction l as [|x l IH]; [reflexivity|].
  cbn [rev existsb]. rewrite existsb_app, IH. cbn. rewrite orb_false_r.
  apply orb_comm.
Qed.

Lemma string_mem_list (c : ascii) (s : string) :
  string_mem c s = existsb (Ascii.eqb c) (list_ascii_of_string s).
Proof. induction s as [|x s IH]; cbn; [reflexivity|now rewrite IH]. Qed.

Lemma string_mem_rev (c : ascii) (s : string) :
  string_mem c (string_rev s) = string_mem c s.
Proof.
  unfold string_rev.
  rewrite !string_mem_list, list_ascii_of_string_of_list_ascii.
  apply existsb_rev.
Qed.

Lemma string_mem_lstrip (c : ascii) (s : string) :
  string_mem c s = false -> string_mem c (lstrip s) = false.
Proof.
  induction s as [|x s IH]; [reflexivity|]. cbn [lstrip].
  destruct (is_space x); [|trivial].
  cbn [string_mem]. intros H. apply orb_false_iff in H. now apply IH.
Qed.

Lemma string_mem_strip (c : ascii) (s : string) :
  string_mem c s = false -> string_mem c (strip s) = false.
Proof.
  intros H. unfold strip, rstrip.
  rewrite string_mem_rev. apply string_mem_lstrip.
  rewrite string_mem_rev. now apply string_mem_lstrip.
Qed.

(** No segment of a split contains the separator. *)
Lemma split_on_segments (sep : ascii) (s : string) :
  Forall (fun seg => string_mem sep seg = false) (split_on sep s).
Proof.
  induction s as [|c s IH]; cbn [split_on].
  - repeat constructor.
  - destruct (Ascii.eqb c sep) eqn:E.
    + constructor; [reflexivity|exact IH].
    + destruct (split_on sep s) as [|seg segs].
      * repeat constructor. cbn. rewrite Ascii.eqb_sym, E. reflexivity.
      * inversion IH as [|? ? Hseg Hsegs]; subst.
        constructor; [|exact Hsegs].
        cbn. rewrite Ascii.eqb_sym, E. exact Hseg.
Qed.

Lemma last_Forall {A : Type} (P : A -> Prop) (l : list A) (d : A) :
  P d -> Forall P l -> P (last l d).
Proof.
  intros Hd H. induction H as [|x l Hx Hl IH]; [exact Hd|].
  cbn [last]. destruct l; [exact Hx|exact IH].
Qed.

(** The raw message of any exception, with the row prefix set apart. *)
Lemma error_msg_of_split (index : Z) (e : PyException) :
  error_msg_of index e
  = (("Row " ++ str_of_Z (index + 2))
     ++ String ":" (" " ++ exc_name e ++ " - " ++ exc_str e))%string.
Proof. unfold error_msg_of. rewrite string_app_assoc. reflexivity. Qed.

Lemma shown_message_of_error (index : Z) (e : PyException) :
  shown_message (error_msg_of index e)
  = strip (last (split_on ":" (" " ++ exc_name e ++ " - " ++ exc_str e))
             EmptyString).
Proof.
  rewrite error_msg_of_split. unfold shown_message.
  rewrite last_segment_app. reflexivity.
Qed.

Section RowOutcome.
Variable text : PyFloat -> Z -> Z -> string.



(** X14: the message shown for a failed row never contains a colon: of the
    raw text "Row N: Type - text" only what follows the last colon is
    kept. *)
Theorem shown_message_has_no_colon (index : Z) (row : Row) :
  string_mem ":" (ErrorMessage (process_row text index row)) = false.
Proof.
  unfold process_row.
  destruct (try_row text row) as [r|e]; cbn [ErrorMessage];
    [reflexivity|].
  unfold shown_message. destruct (is_empty _); [reflexivity|].
  apply string_mem_strip.
  apply (last_Forall (fun seg => string_mem ":" seg = false));
    [reflexivity|apply split_on_segments].
Qed.

(** The outcome of a row does not depend on its position in the table. *)
Lemma process_row_position (i j : Z) (row : Row) :
  process_row text i row = process_row text j row.
Proof.
  unfold process_row. destruct (try_row text row) as [r|e]; [reflexivity|].
  now rewrite !shown_message_of_error.
Qed.

Lemma batch_loop_map (rows : list Row) :
  forall index,
    batch_loop text index rows [] = map (process_row text 0) rows.
Proof.
  induction rows as [|row rest IH]; intros index; [reflexivity|].
  rewrite batch_loop_cons, IH. cbn [map]. f_equal.
  apply process_row_position.
Qed.

Lemma process_batch_map (rows : list Row) :
  process_batch text rows
  = map (fun row => (row, process_row text 0 row)) rows.
Proof.
  unfold process_batch. rewrite batch_loop_map.
  induction rows as [|row rest IH]; [reflexivity|].
  cbn [map combine]. now rewrite IH.
Qed.

(** X15: every output row of a batch is determined by its own input row
    alone (neither its position nor the other rows matter), so the batch of
    two tables put one after the other is the two batches put one after the
    other. *)
Theorem batch_is_row_by_row (a b : list Row) :
  process_batch text a = map (fun row => (row, process_row text 0 row)) a /\
  process_batch text (a ++ b) = process_batch text a ++ process_batch text b.
Proof.
  split; [apply process_batch_map|].
  rewrite !process_batch_map. apply map_app.
Qed.
End RowOutcome.


(** ** The column check *)

Lemma column_present_In (columns : list string) (name : string) :
  column_present columns name = true <-> In name columns.
Proof.
  unfold column_present. rewrite existsb_exists. split.
  - intros (c & Hc & E). apply String.eqb_eq in E. now subst.
  - intros H. exists name. split; [exact H|apply String.eqb_refl].
Qed.

Lemma missing_cols_loop_spec (columns : list string)
    (expected : list (string * string)) :
  forall acc,
    missing_cols_loop columns expected acc
    = acc ++ filter (fun name => negb (column_present columns name))
               (map snd expected).
Proof.
  induction expected as [|[key name] rest IH]; intros acc; cbn.
  - now rewrite app_nil_r.
  - destruct (column_present columns name); cbn [negb].
    + apply IH.
    + rewrite IH, <- app_assoc. reflexivity.
Qed.

Section Upload.
Variable text : PyFloat -> Z -> Z -> string.

(** X16: the upload is processed exactly when "GrossIncome", "Dependents"
    and "Region" are all among the column labels (compared exactly, so a
    label in another case does not count), and then gives one output row
    per input row; otherwise the whole batch is refused with a message that
    lists, after "Error: Missing required columns in Excel file: " and
    separated by ", ", exactly the required names that are absent. *)
Theorem upload_checks_the_columns (df : DataFrame) :
  let required := ["GrossIncome"; "Dependents"; "Region"]%string in
  let absent :=
    filter (fun name => negb (column_present (df_columns df) name)) required in
  ((forall name, In name required -> In name (df_columns df)) ->
   exists table,
     upload text df = ResultTable table /\
     table = process_batch text
               (map (required_cells (df_columns df)) (df_rows df)) /\
     List.length table = List.length (df_rows df)) /\
  (~ (forall name, In name required -> In name (df_columns df)) ->
   upload text df
   = MissingColumns
       ("Error: Missing required columns in Excel file: "
        ++ String.concat ", " absent) /\
   absent <> [] /\
   forall name,
     In name absent <-> In name required /\ ~ In name (df_columns df)).
Proof.
  cbv zeta. unfold upload. rewrite missing_cols_loop_spec.
  cbn [app map snd EXPECTED_COLUMNS].
  set (required := ["GrossIncome"; "Dependents"; "Region"]%string).
  set (absent := filter _ required).
  assert (forall name,
            In name absent <-> In name required /\ ~ In name (df_columns df))
    as Spec.
  { intros name. unfold absent. rewrite filter_In, negb_true_iff.
    rewrite <- not_true_iff_false, column_present_In. tauto. }
  split.
  - intros All. assert (absent = []) as ->.
    { destruct absent as [|x l] eqn:E; [reflexivity|].
      assert (In x (x :: l)) as Hx by (left; reflexivity).
      apply Spec in Hx. destruct Hx as [Hr Hn]. now apply All in Hr. }
    eexists. split; [reflexivity|]. split; [reflexivity|].
    rewrite process_batch_map, !length_map. reflexivity.
  - intros NotAll.
    assert (absent <> []) as Ne.
    { intros E. apply NotAll. intros name Hr.
      destruct (in_dec string_dec name (df_columns df)) as [?|Hn];
        [assumption|].
      assert (In name absent) as Hx by (apply Spec; tauto).
      rewrite E in Hx. destruct Hx. }
    split; [|split; [exact Ne|exact Spec]].
    destruct absent; [contradiction|reflexivity].
Qed.
End Upload.

Lemma upload_checks_the_columns_witness :
  let text := fun (_ : PyFloat) (_ _ : Z) => EmptyString in
  (exists table,
     upload text
       (mkDataFrame ["Region"; "Note"; "GrossIncome"; "Dependents"]%string
          [[CInt 1; CNaN; CInt 30000000; CInt 1]])
     = ResultTable table /\ List.length table = 1%nat) /\
  upload text (mkDataFrame ["region"; "GrossIncome"]%string [])
  = MissingColumns
      "Error: Missing required columns in Excel file: Dependents, Region".
Proof.
  cbv zeta. split.
  - destruct (upload_checks_the_columns (fun _ _ _ => EmptyString)
                (mkDataFrame ["Region"; "Note"; "GrossIncome"; "Dependents"]%string
                   [[CInt 1; CNaN; CInt 30000000; CInt 1]])) as [A _].
    destruct A as (table & E & _ & L).
    + cbn. intros name [<-|[<-|[<-|[]]]]; tauto.
    + exists table. split; [exact E|exact L].
  - destruct (upload_checks_the_columns (fun _ _ _ => EmptyString)
                (mkDataFrame ["region"; "GrossIncome"]%string [])) as [_ B].
    destruct B as (E & _).
    + cbn. intros H.
      destruct (H "Region"%string) as [E|[E|[]]];
        [tauto|discriminate E|discriminate E].
    + exact E.
Defined.

(** ** format_vnd *)

Lemma uint_digits_no_comma (d : Decimal.uint) :
  string_mem "," (NilEmpty.string_of_uint d) = false.
Proof. induction d; cbn; auto. Qed.

Lemma str_of_Z_no_comma (z : Z) : string_mem "," (str_of_Z z) = false.
Proof.
  unfold str_of_Z, NilZero.string_of_int, NilZero.string_of_uint.
  destruct (Z.to_int z) as [d|d]; destruct d;
    cbn [string_mem Ascii.eqb orb]; try reflexivity;
    apply (uint_digits_no_comma (_ d)).
Qed.

Lemma str_of_Z_sign (z : Z) :
  str_of_Z z
  = ((if (z <? 0)%Z then "-" else "") ++ str_of_Z (Z.abs z))%string.
Proof. destruct z; reflexivity. Qed.

Lemma remove_commas_app (a b : string) :
  remove_commas (a ++ b) = (remove_commas a ++ remove_commas b)%string.
Proof.
  induction a as [|c a IH]; cbn [append remove_commas]; [reflexivity|].
  destruct (Ascii.eqb c ","); cbn [append]; now rewrite IH.
Qed.

Lemma remove_commas_id (s : string) :
  string_mem "," s = false -> remove_commas s = s.
Proof.
  induction s as [|c s IH]; cbn [string_mem remove_commas]; [reflexivity|].
  intros H. apply orb_false_iff in H. destruct H as [Hc Hs].
  rewrite Ascii.eqb_sym, Hc. now rewrite IH.
Qed.

Lemma remove_commas_group_thousands (s : string) :
  string_mem "," s = false -> remove_commas (group_thousands s) = s.
Proof.
  induction s as [|c s IH]; cbn [group_thousands string_mem remove_commas];
    [reflexivity|].
  intros H. apply orb_false_iff in H. destruct H as [Hc Hs].
  rewrite Ascii.eqb_sym, Hc.
  destruct ((0 <? String.length s)%nat && (String.length s mod 3 =? 0)%nat);
    cbn [remove_commas Ascii.eqb]; rewrite ?Ascii.eqb_refl; now rewrite IH.
Qed.

(** X17: an amount formatted by [format_vnd] reads back: without its commas
    the text is the decimal numeral of the amount followed by " VND", so
    two different amounts are never shown alike. *)
Theorem format_vnd_reads_back (z : Z) :
  remove_commas (format_vnd (Some z)) = (str_of_Z z ++ " VND")%string /\
  forall z', format_vnd (Some z) = format_vnd (Some z') -> z = z'.
Proof.
  assert (forall n, remove_commas (format_vnd (Some n))
                    = (str_of_Z n ++ " VND")%string) as R.
  { intros n. unfold format_vnd.
    rewrite !remove_commas_app,
      (remove_commas_group_thousands _ (str_of_Z_no_comma (Z.abs n))).
    rewrite (str_of_Z_sign n), string_app_assoc.
    destruct (n <? 0)%Z; reflexivity. }
  split; [apply R|].
  intros z' E. apply (f_equal remove_commas) in E. rewrite !R in E.
  apply str_of_Z_inj, (string_app_inv_tail " VND"), E.
Qed.

(** ** The message of a failed row, by cause *)

Section RowMessages.
Variable text : PyFloat -> Z -> Z -> string.

(** X18: what a failed batch row shows.  A blank dependents or region cell
    gives "ValueError - cannot convert float NaN to integer"; otherwise a
    gross income of 0 or less, a negative dependent count or a region
    outside 1..4 gives "ValueError - Invalid input value(s) in row."; a
    blank gross cell passes that check (no comparison with NaN holds) and is
    refused by the input model, so the row shows the end of pydantic's
    text. *)
Theorem failed_row_messages (index : Z) (row : Row) :
  let out := process_row text index row in
  ((Dependents row = CNaN \/ Region row = CNaN) ->
   CalculationStatus out = "Error"%string /\
   ErrorMessage out
   = "ValueError - cannot convert float NaN to integer"%string) /\
  (forall d reg,
     py_int (Dependents row) = Return d ->
     py_int (Region row) = Return reg ->
     ((exists g, py_float (GrossIncome row) = FNum g /\ g <= 0)
      \/ (d < 0)%Z \/ ~ (1 <= reg <= 4)%Z) ->
     CalculationStatus out = "Error"%string /\
     ErrorMessage out = "ValueError - Invalid input value(s) in row."%string) /\
  (forall d reg,
     py_int (Dependents row) = Return d ->
     py_int (Region row) = Return reg ->
     GrossIncome row = CNaN -> (0 <= d)%Z -> (1 <= reg <= 4)%Z ->
     CalculationStatus out = "Error"%string /\
     ErrorMessage out
     = strip (last (split_on ":" (" ValidationError - " ++ text FNaN d reg))
                EmptyString)).
Proof.
  cbv zeta. unfold process_row, try_row, bind. split; [|split].
  - intros H.
    assert (match py_int (Dependents row) with
            | Return _ => py_int (Region row)
            | Raise e => Raise e
            end = Raise (ValueError "cannot convert float NaN to integer"))
      as E.
    { destruct H as [-> | ->]; [reflexivity|].
      destruct (py_int (Dependents row)) as [d|e] eqn:Ed; [reflexivity|].
      destruct (Dependents row); cbn in Ed; congruence. }
    destruct (py_int (Dependents row)) as [d|e];
      [destruct (py_int (Region row)) as [reg|e]; [discriminate|]|];
      injection E as ->; cbn [CalculationStatus ErrorMessage];
      rewrite shown_message_value_error; split; reflexivity.
  - intros d reg -> -> H.
    assert (float_le_zero (py_float (GrossIncome row)) || (d <? 0)%Z
            || not_in_1234 reg = true) as ->.
    { destruct H as [(g & -> & Hg)|[Hd|Hr]].
      - cbn. apply Qle_bool_iff in Hg. now rewrite Hg.
      - apply Z.ltb_lt in Hd. rewrite Hd. now rewrite orb_true_r.
      - assert (not_in_1234 reg = true) as ->; [|now rewrite orb_true_r].
        unfold not_in_1234. cbn [existsb].
        destruct (Z.eqb_spec reg 1), (Z.eqb_spec reg 2),
          (Z.eqb_spec reg 3), (Z.eqb_spec reg 4); try reflexivity; lia. }
    cbn [CalculationStatus ErrorMessage].
    rewrite shown_message_value_error. split; reflexivity.
  - intros d reg -> -> -> Hd Hr. cbn [py_float float_le_zero orb].
    assert ((d <? 0)%Z = false) as -> by lia.
    assert (not_in_1234 reg = false) as ->.
    { unfold not_in_1234. cbn [existsb].
      assert (reg = 1 \/ reg = 2 \/ reg = 3 \/ reg = 4)%Z
        as [-> | [-> | [-> | ->]]] by lia; reflexivity. }
    cbn [orb GrossNetInput_new CalculationStatus ErrorMessage].
    rewrite shown_message_of_error. split; reflexivity.
Qed.
End RowMessages.

Lemma failed_row_messages_witness :
  let text := fun (_ : PyFloat) (_ _ : Z) =>
                "Input should be greater than 0"%string in
  ErrorMessage (process_row text 0 (mkRow (CInt 30000000) (CInt 1) CNaN))
  = "ValueError - cannot convert float NaN to integer"%string /\
  ErrorMessage (process_row text 1 (mkRow (CInt 0) (CInt 1) (CInt 1)))
  = "ValueError - Invalid input value(s) in row."%string /\
  ErrorMessage (process_row text 2 (mkRow CNaN (CInt 1) (CInt 1)))
  = "ValidationError - Input should be greater than 0"%string.
Proof.
  cbv zeta. split; [|split].
  - destruct (failed_row_messages
                (fun _ _ _ => "Input should be greater than 0"%string) 0
                (mkRow (CInt 30000000) (CInt 1) CNaN)) as (A & _ & _).
    apply A. right. reflexivity.
  - destruct (failed_row_messages
                (fun _ _ _ => "Input should be greater than 0"%string) 1
                (mkRow (CInt 0) (CInt 1) (CInt 1))) as (_ & B & _).
    apply (B 1%Z 1%Z eq_refl eq_refl). left. exists 0. split; [reflexivity|].
    discriminate.
  - destruct (failed_row_messages
                (fun _ _ _ => "Input should be greater than 0"%string) 2
                (mkRow CNaN (CInt 1) (CInt 1))) as (_ & _ & C).
    destruct (C 1%Z 1%Z eq_refl eq_refl eq_refl) as [_ E]; [lia|lia|].
    rewrite E. vm_compute. reflexivity.
Defined.
